(** * multimodalICU: the sample-visualisation generator

    A shallow embedding of [generate_visualizations.py] and the properties
    of the data it synthesises.

    Conventions of the model.
    - A numpy [float64] is a rational number ([Q]) and its arithmetic is
      exact: rounding, infinities and NaN are outside the model.  Numeric
      equality ([==] of Python) is [Qeq]; a few results hold up to Leibniz
      equality and are stated so.
    - A one-dimensional array is a [list Q]; a two-dimensional array is the
      list of its rows.
    - A [datetime] is a number of microseconds ([Z]).
    - The libraries the script calls are the boundary of the model: the
      generator behind [np.random], [np.sin] and the file writing of
      [fig.write_html] are the fields of the class [Runtime], and the script
      is embedded over any instance of it.
    - Of a figure the model keeps the title, the trace names and the data;
      colours, hover templates, legends and sizes are not represented.
    - [print] does not raise in the model: a standard output that cannot
      encode a line is outside it, and no statement below says that a
      generator raises only when its write does. *)

From Stdlib Require Import String Ascii Bool List ZArith QArith Qminmax Qabs Qround Lia Lqa.
Import ListNotations.

Set Implicit Arguments.

(** ** Arrays *)

Module Np.

Local Open Scope Q_scope.

Definition array := list Q.
Definition matrix := list (list Q).

(** Element-wise combination of two arrays of the same length. *)
Fixpoint zip_with {A B C : Type} (f : A -> B -> C) (xs : list A) (ys : list B)
  : list C :=
  match xs, ys with
  | x :: xs', y :: ys' => f x y :: zip_with f xs' ys'
  | _, _ => []
  end.

(** [np.arange(n)]: 0, 1, ..., n-1. *)
Definition arange (n : nat) : array :=
  map (fun k => inject_Z (Z.of_nat k)) (seq 0 n).

(** [np.cumsum]: [out[0] = a[0]], [out[i] = out[i-1] + a[i]]. *)
Fixpoint cumsum_from (acc : Q) (xs : array) : array :=
  match xs with
  | [] => []
  | x :: r => let acc' := acc + x in acc' :: cumsum_from acc' r
  end.

Definition cumsum (xs : array) : array :=
  match xs with
  | [] => []
  | x :: r => x :: cumsum_from x r
  end.

(** [np.clip(a, lo, hi)], that is [np.minimum(hi, np.maximum(a, lo))]. *)
Definition clip1 (lo hi x : Q) : Q := Qmin hi (Qmax x lo).
Definition clip (a : array) (lo hi : Q) : array := map (clip1 lo hi) a.

(** [np.pi], the [float64] nearest to pi: 0x400921FB54442D18. *)
Definition pi : Q := 884279719003555 # 281474976710656.

(** *** Two-dimensional arrays *)

Definition nrows (m : matrix) : nat := length m.
Definition ncols (m : matrix) : nat :=
  match m with
  | [] => 0%nat
  | r :: _ => length r
  end.

(** [m[i][j]] (0 outside the array, where Python raises [IndexError]). *)
Definition get (m : matrix) (i j : nat) : Q := nth j (nth i m []) 0.

Definition tabulate (r c : nat) (f : nat -> nat -> Q) : matrix :=
  map (fun i => map (fun j => f i j) (seq 0 c)) (seq 0 r).

(** [m.T]: the view of [m] with the two axes swapped. *)
Definition T (m : matrix) : matrix :=
  tabulate (ncols m) (nrows m) (fun i j => get m j i).

(** [a + b] for two matrices of one shape. *)
Definition add (a b : matrix) : matrix := zip_with (zip_with Qplus) a b.

(** [m / c] for a scalar [c]. *)
Definition div_scalar (m : matrix) (c : Q) : matrix :=
  map (map (fun x => x / c)) m.

(** [row[i] = v] when [i] is an index of [row]. *)
Fixpoint set_nth (i : nat) (v : Q) (row : list Q) : list Q :=
  match row, i with
  | [], _ => []
  | _ :: r, O => v :: r
  | x :: r, S i' => x :: set_nth i' v r
  end.

(** [np.fill_diagonal(m, v)]: [m[i][i] = v] for every [i] that indexes both
    axes. *)
Fixpoint fill_diagonal_from (i : nat) (m : matrix) (v : Q) : matrix :=
  match m with
  | [] => []
  | row :: rest => set_nth i v row :: fill_diagonal_from (S i) rest v
  end.

Definition fill_diagonal (m : matrix) (v : Q) : matrix :=
  fill_diagonal_from 0 m v.

(** [np.abs(m)]. *)
Definition abs (m : matrix) : matrix := map (map Qabs) m.

(** [np.max(m)] over all the entries; numpy raises [ValueError] on an empty
    array, which is [None] here. *)
Definition max (m : matrix) : option Q :=
  match concat m with
  | [] => None
  | x :: r => Some (fold_left Qmax r x)
  end.

(** The sum of an array. *)
Definition total (xs : array) : Q := fold_right Qplus 0 xs.

(** The shape of a rectangular array. *)
Definition shape (m : matrix) (r c : nat) : Prop :=
  length m = r /\ Forall (fun row => length row = c) m.




End Np.

(** ** The script's data *)

(** A trace of a line chart, [go.Scatter(x=..., y=..., name=...)]. *)
Record Scatter := {
  sc_x : list Z;
  sc_y : Np.array;
  sc_name : string
}.

(** A row of the demographics table,
    [{'Age Group': age, 'Outcome': outcome, 'Count': count}]. *)
Record Row := {
  age_group : string;
  outcome : string;
  count : Z
}.

Inductive Figure : Type :=
| LineChart (title : string) (traces : list Scatter)
| BarChart (title : string) (df : list Row)
| Heatmap (title : string) (x y : list string) (z : Np.matrix).

Inductive exception : Type :=
| ValueError (msg : string)
| OSError (msg : string).

(** What a run does that can be seen from outside. *)
Inductive event : Type :=
| Print (line : string)
| WriteHtml (path : string) (fig : Figure).

(** The local data of [generate_timeseries_visualization]. *)
Record TimeSeries := {
  timestamps : list Z;
  heart_rate : Np.array;
  blood_pressure_sys : Np.array;
  spo2 : Np.array
}.

(** ** The libraries the script runs on *)

Class Runtime : Type := {
  (** the state of the generator behind [np.random] *)
  RandomState : Type;
  (** [np.random.seed(v)]: the state the seed [v] gives *)
  seeded : Z -> RandomState;
  (** one standard normal draw *)
  standard_normal : RandomState -> Q * RandomState;
  (** [np.random.randint(low, high)] *)
  randint : Z -> Z -> RandomState -> Z * RandomState;
  (** [np.sin] on one number *)
  np_sin : Q -> Q;
  (** the files on disk *)
  FileSystem : Type;
  (** [fig.write_html(path, include_plotlyjs='cdn')]: the files after the
      call, and the exception it raised, if any *)
  write_html : Figure -> string -> FileSystem -> FileSystem * option exception
}.

(** numpy's contract for [randint]: a value of the half-open interval
    [[low, high)]. *)
Definition randint_in_range (R : Runtime) : Prop :=
  forall (low high : Z) (s : RandomState),
    (low < high)%Z -> (low <= fst (randint low high s) < high)%Z.

Section Script.

Context {R : Runtime}.

Local Open Scope string_scope.

(** *** The state of a run and the monad of the script *)

Record World := {
  (** the process-wide generator of [np.random] *)
  rng : RandomState;
  (** what the k-th call of [datetime.now()] of this run returns *)
  clock : nat -> Z;
  (** how many times [datetime.now()] was called *)
  ticks : nat;
  fs : FileSystem;
  (** the events so far, oldest first *)
  trace : list event
}.

Definition set_rng (s : RandomState) (w : World) : World :=
  {| rng := s; clock := clock w; ticks := ticks w; fs := fs w;
     trace := trace w |}.

Definition tick (w : World) : World :=
  {| rng := rng w; clock := clock w; ticks := S (ticks w); fs := fs w;
     trace := trace w |}.

Definition set_fs (disk : FileSystem) (w : World) : World :=
  {| rng := rng w; clock := clock w; ticks := ticks w; fs := disk;
     trace := trace w |}.

Definition log (ev : event) (w : World) : World :=
  {| rng := rng w; clock := clock w; ticks := ticks w; fs := fs w;
     trace := (trace w ++ [ev])%list |}.

(** A call returns a value or raises; either way the effects it had up to
    there stay. *)
Inductive Outcome (A : Type) : Type :=
| Returned (a : A) (w : World)
| Raised (e : exception) (w : World).

Arguments Raised {A} e w.

Definition Py (A : Type) : Type := World -> Outcome A.

Definition ret {A : Type} (a : A) : Py A := fun w => Returned a w.

Definition bind {A B : Type} (c : Py A) (k : A -> Py B) : Py B :=
  fun w =>
    match c w with
    | Returned a w' => k a w'
    | Raised e w' => Raised e w'
    end.

Definition raise {A : Type} (e : exception) : Py A := fun w => Raised e w.

Notation "x <- c ;; k" := (bind c (fun x => k))
  (at level 61, c at next level, right associativity).
Notation "c ;; k" := (bind c (fun _ => k))
  (at level 61, right associativity).

(** [[f(x) for x in xs]] *)
Fixpoint for_each {A B : Type} (f : A -> Py B) (xs : list A) : Py (list B) :=
  match xs with
  | [] => ret []
  | x :: r => y <- f x ;; ys <- for_each f r ;; ret (y :: ys)
  end.

(** *** The calls into the libraries *)

Definition print (line : string) : Py unit :=
  fun w => Returned tt (log (Print line) w).

Definition datetime_now : Py Z :=
  fun w => Returned (clock w (ticks w)) (tick w).

(** [timedelta(hours=h)], in microseconds. *)
Definition timedelta_hours (h : Z) : Z := (h * 3600 * 1000000)%Z.

Definition np_random_seed (v : Z) : Py unit :=
  fun w => Returned tt (set_rng (seeded v) w).

(** [n] successive normal draws. *)
Fixpoint draw_normals (n : nat) (s : RandomState) : Np.array * RandomState :=
  match n with
  | O => ([], s)
  | S n' =>
      let (x, s1) := standard_normal s in
      let (xs, s2) := draw_normals n' s1 in
      (x :: xs, s2)
  end.

(** [r] rows of [c] successive normal draws: the array is filled in row-major
    order. *)
Fixpoint draw_normal_rows (r c : nat) (s : RandomState)
  : Np.matrix * RandomState :=
  match r with
  | O => ([], s)
  | S r' =>
      let (row, s1) := draw_normals c s in
      let (rows, s2) := draw_normal_rows r' c s1 in
      (row :: rows, s2)
  end.

Definition with_rng {A : Type} (f : RandomState -> A * RandomState) : Py A :=
  fun w => let (a, s) := f (rng w) in Returned a (set_rng s w).

(** [np.random.randn(n)] *)
Definition np_random_randn (n : nat) : Py Np.array :=
  with_rng (draw_normals n).

(** [np.random.randn(r, c)] *)
Definition np_random_randn2 (r c : nat) : Py Np.matrix :=
  with_rng (draw_normal_rows r c).

(** [np.random.randint(low, high)] *)
Definition np_random_randint (low high : Z) : Py Z :=
  with_rng (randint low high).

(** [fig.write_html(path, include_plotlyjs='cdn')] *)
Definition fig_write_html (fig : Figure) (path : string) : Py unit :=
  fun w =>
    let (disk, r) := write_html fig path (fs w) in
    let w' := log (WriteHtml path fig) (set_fs disk w) in
    match r with
    | None => Returned tt w'
    | Some e => Raised e w'
    end.

(** ["-" * n] *)
Fixpoint str_times (s : string) (n : nat) : string :=
  match n with
  | O => ""
  | S n' => s ++ str_times s n'
  end.

(** *** [generate_timeseries_visualization] *)

Definition hours : nat := 72.

(** Lines 25 to 32: the timestamps and the three vital signs. *)
Definition timeseries_sample : Py TimeSeries :=
  ts <- for_each
          (fun i : nat =>
             now <- datetime_now ;;
             ret (now - timedelta_hours (Z.of_nat hours - Z.of_nat i))%Z)
          (seq 0 hours) ;;
  walk <- np_random_randn hours ;;
  let hr :=
    Np.zip_with Qplus
      (map (Qplus 70) (Np.cumsum walk))
      (map (fun a => 10 * np_sin (a * 2 * Np.pi / 24)) (Np.arange hours))%Q in
  steps <- np_random_randn hours ;;
  let bp := map (Qplus 120) (Np.cumsum (map (fun a => a * (1 # 2))%Q steps)) in
  noise <- np_random_randn hours ;;
  let ox := map (Qplus 95) (map (fun a => a * 2)%Q noise) in
  let ox := Np.clip ox 90 100 in
  ret {| timestamps := ts; heart_rate := hr;
         blood_pressure_sys := bp; spo2 := ox |}.

Definition timeseries_figure (d : TimeSeries) : Figure :=
  LineChart "ICU Patient Vital Signs - Time Series Analysis"
    [ {| sc_x := timestamps d; sc_y := heart_rate d;
         sc_name := "Heart Rate (bpm)" |};
      {| sc_x := timestamps d; sc_y := blood_pressure_sys d;
         sc_name := "Systolic BP (mmHg)" |};
      {| sc_x := timestamps d; sc_y := spo2 d;
         sc_name := "SpO2 (%)" |} ].

Definition generate_timeseries_visualization : Py unit :=
  d <- timeseries_sample ;;
  fig_write_html (timeseries_figure d) "visualizations/timeseries.html" ;;
  print "✓ Generated timeseries.html".

(** *** [generate_demographics_visualization] *)

Definition age_groups : list string :=
  ["18-30"; "31-45"; "46-60"; "61-75"; "76+"].

Definition outcomes : list string :=
  ["Discharged"; "Transferred"; "ICU Stay"].

(** [for x in xs: body], the body updating the local [acc]. *)
Fixpoint for_in {A S : Type} (xs : list A) (body : A -> S -> Py S) (acc : S)
  : Py S :=
  match xs with
  | [] => ret acc
  | x :: r => acc' <- body x acc ;; for_in r body acc'
  end.

(** Lines 89 to 96: the rows of the table, in the order of the appends. *)
Definition demographics_sample : Py (list Row) :=
  for_in age_groups
    (fun age data =>
       for_in outcomes
         (fun outc data =>
            n <- np_random_randint 10 100 ;;
            ret (data ++ [ {| age_group := age; outcome := outc;
                              count := n |} ])%list)
         data)
    [].

Definition demographics_figure (data : list Row) : Figure :=
  BarChart "Patient Demographics and Outcomes" data.

Definition generate_demographics_visualization : Py unit :=
  data <- demographics_sample ;;
  fig_write_html (demographics_figure data)
    "visualizations/demographics.html" ;;
  print "✓ Generated demographics.html".

(** *** [generate_correlation_visualization] *)

Definition variables : list string :=
  ["Heart Rate"; "Blood Pressure"; "SpO2"; "Temperature";
   "Respiratory Rate"; "GCS Score"; "SOFA Score"; "WBC Count"].

(** Lines 140 to 142: the draws, made symmetric, with the diagonal set. *)
Definition symmetrized (drawn : Np.matrix) : Np.matrix :=
  Np.fill_diagonal (Np.div_scalar (Np.add drawn (Np.T drawn)) 2) 1.

(** Line 145: the division by the largest absolute value. *)
Definition normalized (m : Np.matrix) : option Np.matrix :=
  match Np.max (Np.abs m) with
  | None => None
  | Some top => Some (Np.div_scalar m top)
  end.

(** Lines 135 to 145. *)
Definition correlation_sample : Py Np.matrix :=
  let n_vars := length variables in
  drawn <- np_random_randn2 n_vars n_vars ;;
  match normalized (symmetrized drawn) with
  | None =>
      raise (ValueError
        "zero-size array to reduction operation maximum which has no identity")
  | Some correlation_matrix => ret correlation_matrix
  end.

Definition correlation_figure (m : Np.matrix) : Figure :=
  Heatmap "Clinical Variables Correlation Matrix" variables variables m.


Definition generate_correlation_visualization : Py unit :=
  m <- correlation_sample ;;
  fig_write_html (correlation_figure m) "visualizations/correlation.html" ;;
  print "✓ Generated correlation.html".

(** *** [main] and the script *)

Definition main : Py unit :=
  print "Generating interactive Plotly visualizations..." ;;
  print (str_times "-" 50) ;;
  generate_timeseries_visualization ;;
  generate_demographics_visualization ;;
  generate_correlation_visualization ;;
  print (str_times "-" 50) ;;
  print "All visualizations generated successfully!" ;;
  print (String "010" "To view the visualizations:") ;;
  print "1. Open index.html in a web browser" ;;
  print "2. Or deploy to GitHub Pages".

(** The module body, run as a program, with the seed of line 18 as a
    parameter. *)
Definition script_seeded (v : Z) : Py unit :=
  np_random_seed v ;;
  main.

Definition script : Py unit := script_seeded 42.

(** A process starts with an empty trace and a clock that was not read. *)
Definition boot (s : RandomState) (readings : nat -> Z) (disk : FileSystem)
  : World :=
  {| rng := s; clock := readings; ticks := 0; fs := disk; trace := [] |}.

(** *** Observations on a run *)

Definition final_world {A : Type} (o : Outcome A) : World :=
  match o with
  | Returned _ w => w
  | Raised _ w => w
  end.

Definition raised_by {A : Type} (o : Outcome A) : option exception :=
  match o with
  | Returned _ _ => None
  | Raised e _ => Some e
  end.

(** The figures handed to [write_html], in order. *)
Fixpoint figures (t : list event) : list Figure :=
  match t with
  | [] => []
  | Print _ :: r => figures r
  | WriteHtml _ fig :: r => fig :: figures r
  end.

(** The paths handed to [write_html], in order. *)
Fixpoint paths (t : list event) : list string :=
  match t with
  | [] => []
  | Print _ :: r => paths r
  | WriteHtml p _ :: r => p :: paths r
  end.

(** The lines printed, in order. *)
Fixpoint printed (t : list event) : list string :=
  match t with
  | [] => []
  | Print l :: r => l :: printed r
  | WriteHtml _ _ :: r => printed r
  end.

End Script.

Arguments Returned {R A} a w.
Arguments Raised {R A} e w.

(** The synthesized arrays of a figure: everything but the timestamps, the
    titles and the labels. *)
Inductive Synthesized : Type :=
| Series (ys : list Np.array)
| Counts (ns : list Z)
| Matrix (z : Np.matrix).

Definition synthesized (fig : Figure) : Synthesized :=
  match fig with
  | LineChart _ traces => Series (map sc_y traces)
  | BarChart _ df => Counts (map count df)
  | Heatmap _ _ _ z => Matrix z
  end.

(** ** A small runtime to run the script on

    The generator state counts the draws made; the normal draws repeat
    2, -1, 3, -3; [randint] walks through its interval.  The
    disk has room for a number of files and a write raises once it is
    full. *)

Definition demo_sin (a : Q) : Q := (a - a * a * a / 6)%Q.

Definition demo_normal (n : nat) : Q * nat :=
  (nth (n mod 4) [2; -1; 3; -3] 0, S n)%Q.

Definition demo_randint (low high : Z) (n : nat) : Z * nat :=
  ((low + Z.of_nat n mod (high - low))%Z, S n).

Definition demo_disk : Type := nat * list (string * Figure).

Definition demo_write (fig : Figure) (path : string) (disk : demo_disk)
  : demo_disk * option exception :=
  match fst disk with
  | O => (disk, Some (OSError "No space left on device"))
  | S room => ((room, (path, fig) :: snd disk), None)
  end.

Definition demo : Runtime := {|
  RandomState := nat;
  seeded := Z.to_nat;
  standard_normal := demo_normal;
  randint := demo_randint;
  np_sin := demo_sin;
  FileSystem := demo_disk;
  write_html := demo_write
|}.

(** A clock that advances by 7 microseconds from one reading to the next. *)
Definition demo_clock (start : Z) (k : nat) : Z := (start + 7 * Z.of_nat k)%Z.

(** A process on the small runtime: the clock starts at [start], the disk is
    empty with room for [room] files. *)
Definition demo_world (start : Z) (room : nat) : @World demo :=
  @boot demo (0%nat : @RandomState demo) (demo_clock start)
        ((room, []) : @FileSystem demo).

(** * Facts on arrays *)

Module NpFacts.

Import Np.
Local Open Scope Q_scope.

Lemma zip_with_length {A B C : Type} (f : A -> B -> C) xs ys :
  length (zip_with f xs ys) = Nat.min (length xs) (length ys).
Proof.
  revert ys; induction xs as [|x xs IH]; intros [|y ys]; simpl; auto.
Qed.

Lemma zip_with_nth {A B C : Type} (f : A -> B -> C) xs ys i da db dc :
  (i < length xs)%nat -> (i < length ys)%nat ->
  nth i (zip_with f xs ys) dc = f (nth i xs da) (nth i ys db).
Proof.
  revert ys i; induction xs as [|x xs IH]; intros [|y ys] [|i]; simpl;
    intros Hx Hy; try lia; auto.
  apply IH; lia.
Qed.

Lemma map_nth_in {A B : Type} (f : A -> B) xs i da db :
  (i < length xs)%nat -> nth i (map f xs) db = f (nth i xs da).
Proof.
  revert i; induction xs as [|x xs IH]; intros [|i]; simpl; intros H;
    try lia; auto.
  apply IH; lia.
Qed.

Lemma last_nth {A : Type} (xs : list A) (n : nat) (d : A) :
  length xs = S n -> last xs d = nth n xs d.
Proof.
  revert n; induction xs as [|x xs IH]; intros n H; simpl in H;
    [discriminate |].
  destruct xs as [|y xs].
  - simpl in H. injection H as <-. reflexivity.
  - destruct n as [|n]; [discriminate |].
    change (last (x :: y :: xs) d) with (last (y :: xs) d).
    rewrite (IH n) by (simpl in *; lia). reflexivity.
Qed.

Lemma arange_length n : length (arange n) = n.
Proof. unfold arange. now rewrite length_map, length_seq. Qed.

Lemma arange_nth n i :
  (i < n)%nat -> nth i (arange n) 0 = inject_Z (Z.of_nat i).
Proof.
  intros H. unfold arange.
  rewrite (map_nth_in _ _ 0%nat) by now rewrite length_seq.
  now rewrite seq_nth.
Qed.

(** *** Running sums *)

Lemma cumsum_from_length acc xs : length (cumsum_from acc xs) = length xs.
Proof. revert acc; induction xs; intros; simpl; auto. Qed.

Lemma cumsum_length xs : length (cumsum xs) = length xs.
Proof. destruct xs; simpl; auto using cumsum_from_length. Qed.

Lemma cumsum_from_nth acc xs i :
  (i < length xs)%nat ->
  nth i (cumsum_from acc xs) 0 == acc + total (firstn (S i) xs).
Proof.
  revert acc i; induction xs as [|x xs IH]; intros acc i H; simpl in H.
  - lia.
  - destruct i as [|i].
    + simpl. destruct xs; simpl; ring.
    + change (nth (S i) (cumsum_from acc (x :: xs)) 0)
        with (nth i (cumsum_from (acc + x) xs) 0).
      rewrite IH by lia.
      change (total (firstn (S (S i)) (x :: xs)))
        with (x + total (firstn (S i) xs)).
      ring.
Qed.

Lemma cumsum_nth xs i :
  (i < length xs)%nat -> nth i (cumsum xs) 0 == total (firstn (S i) xs).
Proof.
  destruct xs as [|x xs]; simpl length; intros H; [lia|].
  destruct i as [|i].
  - simpl. destruct xs; simpl; ring.
  - change (nth (S i) (cumsum (x :: xs)) 0) with (nth i (cumsum_from x xs) 0).
    rewrite cumsum_from_nth by lia.
    change (total (firstn (S (S i)) (x :: xs)))
      with (x + total (firstn (S i) xs)).
    reflexivity.
Qed.

(** *** Clipping *)

Lemma clip1_bounds lo hi x : lo <= hi -> lo <= clip1 lo hi x <= hi.
Proof.
  intros H. unfold clip1. split.
  - apply Q.min_glb; [exact H | apply Q.le_max_r].
  - apply Q.le_min_l.
Qed.

Lemma clip_length a lo hi : length (clip a lo hi) = length a.
Proof. apply length_map. Qed.

Lemma clip_bounds a lo hi :
  lo <= hi -> Forall (fun x => lo <= x <= hi) (clip a lo hi).
Proof.
  intros H. unfold clip. apply Forall_forall. intros y Hy.
  apply in_map_iff in Hy. destruct Hy as [x [<- _]].
  now apply clip1_bounds.
Qed.

(** *** Shapes and entries *)

Lemma shape_row m r c i :
  shape m r c -> (i < r)%nat -> length (nth i m []) = c.
Proof.
  intros [Hr Hc] Hi. rewrite Forall_forall in Hc.
  apply Hc, nth_In. lia.
Qed.

Lemma shape_ncols m r c : shape m r c -> (0 < r)%nat -> ncols m = c.
Proof.
  intros H Hr. destruct m as [|row m].
  - destruct H as [H _]. simpl in H. lia.
  - apply (shape_row (m := row :: m) (i := 0) H Hr).
Qed.

Lemma shape_tabulate r c f : shape (tabulate r c f) r c.
Proof.
  unfold tabulate, shape. split.
  - now rewrite length_map, length_seq.
  - apply Forall_forall. intros row Hrow.
    apply in_map_iff in Hrow. destruct Hrow as [i [<- _]].
    now rewrite length_map, length_seq.
Qed.

Lemma get_tabulate r c f i j :
  (i < r)%nat -> (j < c)%nat -> get (tabulate r c f) i j = f i j.
Proof.
  intros Hi Hj. unfold get, tabulate.
  rewrite (map_nth_in _ _ 0%nat) by now rewrite length_seq.
  rewrite (map_nth_in _ _ 0%nat) by now rewrite length_seq.
  now rewrite !seq_nth.
Qed.

Lemma shape_T m r c : shape m r c -> (0 < r)%nat -> shape (T m) c r.
Proof.
  intros H Hr. unfold T, nrows.
  rewrite (shape_ncols H Hr). destruct H as [-> _].
  apply shape_tabulate.
Qed.

Lemma get_T m r c i j :
  shape m r c -> (i < c)%nat -> (j < r)%nat -> get (T m) i j = get m j i.
Proof.
  intros H Hi Hj. unfold T, nrows.
  rewrite (shape_ncols H) by lia. destruct H as [-> _].
  now rewrite get_tabulate.
Qed.

Lemma shape_map (f : Q -> Q) m r c : shape m r c -> shape (map (map f) m) r c.
Proof.
  intros [Hr Hc]. split.
  - now rewrite length_map.
  - apply Forall_forall. intros row Hrow.
    apply in_map_iff in Hrow. destruct Hrow as [row' [<- Hin]].
    rewrite length_map. rewrite Forall_forall in Hc. now apply Hc.
Qed.

Lemma get_map (f : Q -> Q) m r c i j :
  shape m r c -> (i < r)%nat -> (j < c)%nat ->
  get (map (map f) m) i j = f (get m i j).
Proof.
  intros H Hi Hj. unfold get.
  rewrite (map_nth_in _ _ []) by (destruct H; lia).
  apply map_nth_in. now rewrite (shape_row H Hi).
Qed.

Lemma shape_add a b r c : shape a r c -> shape b r c -> shape (add a b) r c.
Proof.
  unfold add. revert b r. induction a as [|ra a IH]; intros [|rb b] r [Ha Hca] [Hb Hcb];
    simpl in *; try (split; [assumption | constructor]); try lia.
  inversion Hca; subst. inversion Hcb; subst.
  destruct (IH b (length a)) as [Hl Hf]; [split; auto | split; auto; lia |].
  split.
  - simpl. now rewrite Hl.
  - constructor; [| exact Hf].
    rewrite zip_with_length. lia.
Qed.

Lemma get_add a b r c i j :
  shape a r c -> shape b r c -> (i < r)%nat -> (j < c)%nat ->
  get (add a b) i j = get a i j + get b i j.
Proof.
  intros Ha Hb Hi Hj. unfold get, add.
  rewrite (zip_with_nth _ _ _ [] [] []) by (destruct Ha, Hb; lia).
  apply zip_with_nth.
  - now rewrite (shape_row Ha Hi).
  - now rewrite (shape_row Hb Hi).
Qed.

Lemma set_nth_length i v row : length (set_nth i v row) = length row.
Proof.
  revert i; induction row as [|x row IH]; intros [|i]; simpl; auto.
Qed.

Lemma set_nth_nth i v row j :
  (i < length row)%nat ->
  nth j (set_nth i v row) 0 = if Nat.eqb j i then v else nth j row 0.
Proof.
  revert i j; induction row as [|x row IH]; intros [|i] [|j]; simpl;
    intros H; try lia; auto.
  apply IH. lia.
Qed.

Lemma shape_fill_diagonal_from k m v r c :
  shape m r c -> shape (fill_diagonal_from k m v) r c.
Proof.
  revert k r. induction m as [|row m IH]; intros k r [Hr Hc]; simpl in *.
  - split; [assumption | constructor].
  - inversion Hc; subst.
    destruct (IH (S k) (length m)) as [Hl Hf]; [split; auto |].
    split; [simpl; now rewrite Hl |].
    constructor; [apply set_nth_length | exact Hf].
Qed.

Lemma get_fill_diagonal_from k m v r c i j :
  shape m r c -> (i < r)%nat -> (k + i < c)%nat ->
  get (fill_diagonal_from k m v) i j =
  if Nat.eqb j (k + i) then v else get m i j.
Proof.
  revert k r i. induction m as [|row m IH]; intros k r i [Hr Hc] Hi Hk;
    simpl in Hr; [lia|].
  inversion Hc; subst.
  destruct i as [|i].
  - unfold get. simpl. rewrite Nat.add_0_r in *. apply set_nth_nth. lia.
  - change (get (fill_diagonal_from k (row :: m) v) (S i) j)
      with (get (fill_diagonal_from (S k) m v) i j).
    rewrite (IH (S k) (length m) i); [| split; auto | simpl in Hi; lia | lia].
    replace (S k + i)%nat with (k + S i)%nat by lia. reflexivity.
Qed.

Lemma shape_fill_diagonal m v r c :
  shape m r c -> shape (fill_diagonal m v) r c.
Proof. apply shape_fill_diagonal_from. Qed.

Lemma get_fill_diagonal m v n i j :
  shape m n n -> (i < n)%nat ->
  get (fill_diagonal m v) i j = if Nat.eqb j i then v else get m i j.
Proof.
  intros H Hi. unfold fill_diagonal.
  apply (@get_fill_diagonal_from 0%nat m v n n i j H Hi). simpl. exact Hi.
Qed.

(** *** The largest entry *)

Lemma Qmax_cases x y : Qmax x y = x \/ Qmax x y = y.
Proof.
  unfold Qmax, GenericMinMax.gmax. destruct (x ?= y); auto.
Qed.

Lemma fold_left_Qmax_ge r x :
  x <= fold_left Qmax r x /\
  (forall y, In y r -> y <= fold_left Qmax r x).
Proof.
  revert x; induction r as [|z r IH]; intros x; simpl.
  - split; [apply Qle_refl | intros y []].
  - destruct (IH (Qmax x z)) as [H1 H2]. split.
    + eapply Qle_trans; [apply Q.le_max_l | exact H1].
    + intros y [<- | Hy]; [| now apply H2].
      eapply Qle_trans; [apply Q.le_max_r | exact H1].
Qed.

Lemma fold_left_Qmax_in r x : In (fold_left Qmax r x) (x :: r).
Proof.
  revert x; induction r as [|z r IH]; intros x; simpl.
  - now left.
  - destruct (IH (Qmax x z)) as [H | H].
    + rewrite <- H. destruct (Qmax_cases x z) as [E | E]; rewrite E; auto.
    + right. now right.
Qed.

Lemma in_concat_get m r c x :
  shape m r c -> In x (concat m) ->
  exists i j, (i < r)%nat /\ (j < c)%nat /\ get m i j = x.
Proof.
  intros H Hx. apply in_concat in Hx. destruct Hx as [row [Hrow Hin]].
  destruct (In_nth _ _ [] Hrow) as [i [Hi Ei]].
  destruct (In_nth _ _ 0 Hin) as [j [Hj Ej]].
  assert (Hir : (i < r)%nat) by (destruct H; lia).
  exists i, j. repeat split; auto.
  - rewrite <- (shape_row H Hir). now rewrite Ei.
  - unfold get. now rewrite Ei.
Qed.

Lemma get_in_concat m r c i j :
  shape m r c -> (i < r)%nat -> (j < c)%nat -> In (get m i j) (concat m).
Proof.
  intros H Hi Hj. apply in_concat. exists (nth i m []). split.
  - apply nth_In. destruct H; lia.
  - apply nth_In. now rewrite (shape_row H Hi).
Qed.

Lemma max_spec m r c top :
  shape m r c -> max m = Some top ->
  (forall i j, (i < r)%nat -> (j < c)%nat -> get m i j <= top) /\
  (exists i j, (i < r)%nat /\ (j < c)%nat /\ get m i j = top).
Proof.
  intros H Hmax. unfold max in Hmax.
  destruct (concat m) as [|x rest] eqn:E; [discriminate|].
  injection Hmax as <-.
  destruct (fold_left_Qmax_ge rest x) as [Hx Hrest]. split.
  - intros i j Hi Hj.
    pose proof (get_in_concat H Hi Hj) as Hin. rewrite E in Hin.
    destruct Hin as [<- | Hin]; auto.
  - eapply in_concat_get; [exact H |]. rewrite E. apply fold_left_Qmax_in.
Qed.

Lemma max_defined m r c :
  shape m r c -> (0 < r)%nat -> (0 < c)%nat -> exists top, max m = Some top.
Proof.
  intros H Hr Hc. unfold max.
  pose proof (get_in_concat H Hr Hc) as Hin.
  destruct (concat m) as [|x rest]; [destruct Hin | eauto].
Qed.

End NpFacts.

(** * Facts on the script *)

Section ScriptFacts.

Context {R : Runtime}.

Import Np NpFacts.

(** ** The monad *)

Lemma bind_run {A B : Type} (c : Py A) (k : A -> Py B) (w : World) :
  bind c k w =
  match c w with
  | Returned a w' => k a w'
  | Raised e w' => Raised e w'
  end.
Proof. reflexivity. Qed.

Lemma bind_returned {A B : Type} (c : Py A) (k : A -> Py B) w a w' :
  c w = Returned a w' -> bind c k w = k a w'.
Proof. intros H. now rewrite bind_run, H. Qed.

Lemma bind_raised {A B : Type} (c : Py A) (k : A -> Py B) w e w' :
  c w = Raised e w' -> bind c k w = Raised e w'.
Proof. intros H. now rewrite bind_run, H. Qed.

Lemma ret_run {A : Type} (a : A) (w : World) : ret a w = Returned a w.
Proof. reflexivity. Qed.

Lemma datetime_now_run (w : World) :
  datetime_now w = Returned (clock w (ticks w)) (tick w).
Proof. reflexivity. Qed.

Lemma print_run (line : string) (w : World) :
  print line w = Returned tt (log (Print line) w).
Proof. reflexivity. Qed.

Lemma with_rng_run {A : Type} (f : RandomState -> A * RandomState) w :
  with_rng f w = Returned (fst (f (rng w))) (set_rng (snd (f (rng w))) w).
Proof. unfold with_rng. now destruct (f (rng w)). Qed.

Lemma np_random_randint_run (low high : Z) (w : World) :
  np_random_randint low high w =
  Returned (fst (randint low high (rng w)))
           (set_rng (snd (randint low high (rng w))) w).
Proof. apply with_rng_run. Qed.

Lemma rng_set_rng (s : RandomState) (w : World) : rng (set_rng s w) = s.
Proof. reflexivity. Qed.

Lemma set_rng_set_rng (s s' : RandomState) (w : World) :
  set_rng s (set_rng s' w) = set_rng s w.
Proof. reflexivity. Qed.

(** ** The clock *)

Lemma iter_tick n w :
  rng (Nat.iter n tick w) = rng w /\
  clock (Nat.iter n tick w) = clock w /\
  ticks (Nat.iter n tick w) = (ticks w + n)%nat /\
  fs (Nat.iter n tick w) = fs w /\
  trace (Nat.iter n tick w) = trace w.
Proof.
  induction n as [|n IH]; simpl.
  - repeat split; auto.
  - destruct IH as (H1 & H2 & H3 & H4 & H5). repeat split; auto.
    rewrite H3. lia.
Qed.

(** A comprehension that reads the clock once for each element. *)
Lemma for_each_now (g : nat -> Z) xs w :
  exists ts,
    for_each (fun i : nat => bind datetime_now (fun now => ret (now - g i)%Z))
             xs w
    = Returned ts (Nat.iter (length xs) tick w) /\
    length ts = length xs /\
    forall k, (k < length xs)%nat ->
      nth k ts 0%Z = (clock w (ticks w + k) - g (nth k xs 0%nat))%Z.
Proof.
  revert w; induction xs as [|x xs IH]; intros w.
  - exists []. repeat split; auto. simpl. intros k Hk. lia.
  - destruct (IH (tick w)) as (ts & E & Hl & Hn).
    exists ((clock w (ticks w) - g x)%Z :: ts). repeat split.
    + cbn [for_each]. rewrite bind_run, bind_run, datetime_now_run, ret_run.
      rewrite bind_run, E, ret_run. cbn [length].
      now rewrite Nat.iter_succ_r.
    + simpl. now rewrite Hl.
    + intros [|k] Hk; cbn [nth].
      * now rewrite Nat.add_0_r.
      * rewrite Hn by (simpl in Hk; lia). cbn [tick clock ticks].
        now replace (S (ticks w) + k)%nat with (ticks w + S k)%nat by lia.
Qed.

(** ** The random draws *)

Lemma draw_normals_length n s : length (fst (draw_normals n s)) = n.
Proof.
  revert s; induction n as [|n IH]; intros s; simpl; auto.
  destruct (standard_normal s) as [x s1].
  specialize (IH s1). destruct (draw_normals n s1) as [xs s2].
  simpl in *. now rewrite IH.
Qed.

Lemma draw_normal_rows_shape r c s :
  shape (fst (draw_normal_rows r c s)) r c.
Proof.
  revert s; induction r as [|r IH]; intros s; simpl.
  - split; [reflexivity | constructor].
  - pose proof (draw_normals_length c s) as Hrow.
    destruct (draw_normals c s) as [row s1].
    specialize (IH s1). destruct (draw_normal_rows r c s1) as [rows s2].
    simpl in *. destruct IH as [Hl Hf]. split.
    + simpl. now rewrite Hl.
    + now constructor.
Qed.

(** ** The time series *)

(** What [timeseries_sample] returns, from the state of the generator and the
    clock it starts with. *)
Lemma timeseries_sample_run (w : World) :
  let d1 := draw_normals hours (rng w) in
  let d2 := draw_normals hours (snd d1) in
  let d3 := draw_normals hours (snd d2) in
  exists ts,
    timeseries_sample w =
    Returned
      {| timestamps := ts;
         heart_rate :=
           zip_with Qplus
             (map (Qplus 70) (cumsum (fst d1)))
             (map (fun a => 10 * np_sin (a * 2 * pi / 24)) (arange hours))%Q;
         blood_pressure_sys :=
           map (Qplus 120) (cumsum (map (fun a => a * (1 # 2))%Q (fst d2)));
         spo2 :=
           clip (map (Qplus 95) (map (fun a => a * 2)%Q (fst d3))) 90 100 |}
      (set_rng (snd d3) (Nat.iter hours tick w)) /\
    length ts = hours /\
    forall i, (i < hours)%nat ->
      nth i ts 0%Z =
      (clock w (ticks w + i)
       - timedelta_hours (Z.of_nat hours - Z.of_nat i))%Z.
Proof.
  intros d1 d2 d3.
  destruct (for_each_now
              (fun i => timedelta_hours (Z.of_nat hours - Z.of_nat i))
              (seq 0 hours) w) as (ts & E & Hl & Hn).
  rewrite length_seq in E, Hl, Hn.
  destruct (iter_tick hours w) as (Hrng & _).
  exists ts. split; [| split].
  - unfold timeseries_sample.
    rewrite bind_run, E.
    unfold np_random_randn.
    rewrite bind_run, with_rng_run.
    rewrite bind_run, with_rng_run.
    rewrite bind_run, with_rng_run.
    rewrite ret_run, !rng_set_rng, !set_rng_set_rng, Hrng.
    subst d1 d2 d3. reflexivity.
  - exact Hl.
  - intros i Hi. rewrite (Hn i Hi). now rewrite seq_nth.
Qed.

(** C3. The oxygen-saturation sequence has 72 values, each of them in
    [[90, 100]]. *)
Theorem spo2_length_and_range (w : World) :
  exists d w',
    timeseries_sample w = Returned d w' /\
    length (spo2 d) = 72%nat /\
    Forall (fun x => 90 <= x <= 100)%Q (spo2 d).
Proof.
  destruct (timeseries_sample_run w) as (ts & E & _).
  eexists _, _. split; [exact E |]. cbn [spo2]. split.
  - rewrite clip_length, !length_map. apply draw_normals_length.
  - apply clip_bounds. discriminate.
Qed.

(** C7. The heart rate at hour [i] is 70, plus the sum of the first [i + 1]
    draws of the first [randn(72)] call, plus 10 times the sine taken at
    [i * 2 * pi / 24]; that angle advances by [2 * pi] every 24 hours. *)
Theorem heart_rate_walk_plus_sinusoid (w : World) (i : nat) :
  (i < 72)%nat ->
  exists d w',
    timeseries_sample w = Returned d w' /\
    (nth i (heart_rate d) 0
     == 70 + total (firstn (S i) (fst (draw_normals 72 (rng w))))
        + 10 * np_sin (inject_Z (Z.of_nat i) * 2 * pi / 24))%Q /\
    (inject_Z (Z.of_nat (i + 24)) * 2 * pi / 24
     == inject_Z (Z.of_nat i) * 2 * pi / 24 + 2 * pi)%Q.
Proof.
  change 72%nat with hours. intros Hi.
  destruct (timeseries_sample_run w) as (ts & E & _).
  eexists _, _. split; [exact E |]. cbn [heart_rate]. split.
  - pose proof (draw_normals_length hours (rng w)) as Hlen.
    rewrite (zip_with_nth _ _ _ 0%Q 0%Q)
      by (rewrite ?length_map, ?cumsum_length, ?arange_length, ?Hlen;
          exact Hi).
    rewrite (map_nth_in _ _ 0%Q) by (rewrite cumsum_length, Hlen; exact Hi).
    rewrite (map_nth_in _ _ 0%Q) by (rewrite arange_length; exact Hi).
    rewrite (arange_nth Hi).
    rewrite cumsum_nth by (rewrite Hlen; exact Hi).
    reflexivity.
  - rewrite Nat2Z.inj_add, inject_Z_plus. unfold pi. field.
Qed.

(** C8, as the code has it.  The 72 timestamps are each a clock reading of
    their own, taken back by 72, 71, ..., 1 hours: the last one is one hour
    before the reading it was made from. *)
Theorem timestamps_end_one_hour_back (w : World) :
  exists d w',
    timeseries_sample w = Returned d w' /\
    length (timestamps d) = 72%nat /\
    (forall i, (i < 72)%nat ->
       nth i (timestamps d) 0%Z =
       (clock w (ticks w + i) - timedelta_hours (72 - Z.of_nat i))%Z) /\
    last (timestamps d) 0%Z = (clock w (ticks w + 71) - 3600000000)%Z.
Proof.
  destruct (timeseries_sample_run w) as (ts & E & Hl & Hn).
  eexists _, _. split; [exact E |]. cbn [timestamps].
  split; [exact Hl |]. split; [exact Hn |].
  assert (Hlast : last ts 0%Z = nth 71 ts 0%Z) by now apply last_nth.
  rewrite Hlast, (Hn 71%nat) by (unfold hours; lia).
  reflexivity.
Qed.

(** ** The demographics table *)

Lemma set_rng_same (w : World) : set_rng (rng w) w = w.
Proof. now destruct w. Qed.

(** The inner loop: one draw and one appended row for each outcome.  The
    counts and the generator state after the loop depend on the generator
    state before it and on nothing else. *)
Lemma demographics_inner_loop (age : string) (os : list string) :
  forall (data : list Row) (w : World),
  exists ns s,
    length ns = length os /\
    (randint_in_range R -> Forall (fun n => 10 <= n < 100)%Z ns) /\
    forall w', rng w' = rng w ->
      for_in os
        (fun outc data =>
           bind (np_random_randint 10 100)
                (fun n => ret (data ++ [ {| age_group := age; outcome := outc;
                                            count := n |} ])))
        data w'
      = Returned
          (data ++ zip_with (fun o n => {| age_group := age; outcome := o;
                                           count := n |}) os ns)
          (set_rng s w').
Proof.
  induction os as [|o os IH]; intros data w.
  - exists [], (rng w). repeat split; [constructor |].
    intros w' <-. cbn [for_in zip_with].
    now rewrite ret_run, app_nil_r, set_rng_same.
  - set (d := randint 10 100 (rng w)).
    destruct (IH (data ++ [ {| age_group := age; outcome := o;
                               count := fst d |} ])
                 (set_rng (snd d) w)) as (ns & s & Hl & Hr & Hrun).
    exists (fst d :: ns), s. split; [| split].
    + simpl. now rewrite Hl.
    + intros HR. constructor; [| now apply Hr].
      apply HR. reflexivity.
    + intros w' Hw. cbn [for_in zip_with].
      rewrite bind_run, bind_run, np_random_randint_run, ret_run, Hw.
      fold d.
      rewrite (Hrun (set_rng (snd d) w')) by reflexivity.
      now rewrite set_rng_set_rng, <- app_assoc.
Qed.

(** The outer loop over the age groups. *)
Lemma demographics_outer_loop (ags os : list string) :
  forall (data : list Row) (w : World),
  exists rows s,
    map (fun r => (age_group r, outcome r)) rows = list_prod ags os /\
    (randint_in_range R -> Forall (fun r => 10 <= count r < 100)%Z rows) /\
    forall w', rng w' = rng w ->
      for_in ags
        (fun age data =>
           for_in os
             (fun outc data =>
                bind (np_random_randint 10 100)
                     (fun n => ret (data ++ [ {| age_group := age;
                                                 outcome := outc;
                                                 count := n |} ])))
             data)
        data w'
      = Returned (data ++ rows) (set_rng s w').
Proof.
  induction ags as [|age ags IH]; intros data w.
  - exists [], (rng w). repeat split; [constructor |].
    intros w' <-. cbn [for_in].
    now rewrite ret_run, app_nil_r, set_rng_same.
  - destruct (demographics_inner_loop age os data w)
      as (ns & s1 & Hl & Hr1 & Hrun1).
    set (block := zip_with (fun o n => {| age_group := age; outcome := o;
                                          count := n |}) os ns) in *.
    destruct (IH (data ++ block) (set_rng s1 w))
      as (rows & s & Hk & Hr & Hrun).
    exists (block ++ rows), s. split; [| split].
    + rewrite map_app, Hk. cbn [list_prod]. f_equal.
      subst block. clear - Hl. revert ns Hl.
      induction os as [|o os IHos]; intros [|n ns] Hl; simpl in *;
        try discriminate; auto.
      f_equal. apply IHos. now injection Hl.
    + intros HR. apply Forall_app. split; [| now apply Hr].
      specialize (Hr1 HR). subst block. clear - Hr1. revert ns Hr1.
      induction os as [|o os IHos]; intros [|n ns] Hr1; simpl;
        try constructor.
      * now inversion Hr1.
      * apply IHos. now inversion Hr1.
    + intros w' Hw. cbn [for_in]. rewrite bind_run.
      rewrite (Hrun1 w' Hw).
      rewrite (Hrun (set_rng s1 w')) by reflexivity.
      now rewrite set_rng_set_rng, <- app_assoc.
Qed.

Lemma demographics_sample_run (w : World) :
  exists rows s,
    map (fun r => (age_group r, outcome r)) rows
      = list_prod age_groups outcomes /\
    (randint_in_range R -> Forall (fun r => 10 <= count r < 100)%Z rows) /\
    forall w', rng w' = rng w ->
      demographics_sample w' = Returned rows (set_rng s w').
Proof.
  destruct (demographics_outer_loop age_groups outcomes [] w)
    as (rows & s & Hk & Hr & Hrun).
  exists rows, s. repeat split; auto.
Qed.

(** C4. The table has 15 rows, one for each pair of an age group and an
    outcome, and each count is in [[10, 100)]. *)
Theorem demographics_rows_and_counts (w : World) :
  randint_in_range R ->
  exists data w',
    demographics_sample w = Returned data w' /\
    length data = 15%nat /\
    map (fun r => (age_group r, outcome r)) data
      = list_prod age_groups outcomes /\
    NoDup (list_prod age_groups outcomes) /\
    Forall (fun r => 10 <= count r < 100)%Z data.
Proof.
  intros HR.
  destruct (demographics_sample_run w) as (rows & s & Hk & Hr & Hrun).
  exists rows, (set_rng s w). split; [now apply Hrun |].
  split; [| split; [exact Hk | split; [| now apply Hr]]].
  - rewrite <- (length_map (fun r => (age_group r, outcome r))), Hk.
    reflexivity.
  - cbv [list_prod age_groups outcomes map app].
    repeat (constructor; [cbn; intuition discriminate |]). constructor.
Qed.

(** ** The correlation matrix *)

Lemma Qplus_comm_eq (x y : Q) : (x + y)%Q = (y + x)%Q.
Proof.
  unfold Qplus. f_equal; [apply Z.add_comm | apply Pos.mul_comm].
Qed.

Lemma symmetrized_shape a n :
  shape a n n -> (0 < n)%nat -> shape (symmetrized a) n n.
Proof.
  intros H Hn. unfold symmetrized.
  apply shape_fill_diagonal. unfold div_scalar. apply shape_map.
  apply shape_add; [exact H | now apply shape_T].
Qed.

Lemma get_symmetrized a n i j :
  shape a n n -> (i < n)%nat -> (j < n)%nat ->
  get (symmetrized a) i j =
  if Nat.eqb j i then 1%Q else ((get a i j + get a j i) / 2)%Q.
Proof.
  intros H Hi Hj. unfold symmetrized.
  assert (HT : shape (T a) n n) by (apply shape_T; [exact H | lia]).
  assert (HA : shape (add a (T a)) n n) by now apply shape_add.
  rewrite (@get_fill_diagonal _ 1%Q n i j)
    by (try exact Hi; unfold div_scalar; now apply shape_map).
  destruct (Nat.eqb j i); [reflexivity |].
  unfold div_scalar.
  rewrite (@get_map (fun x => x / 2)%Q _ n n i j HA Hi Hj).
  rewrite (@get_add a (T a) n n i j H HT Hi Hj).
  now rewrite (@get_T a n n i j H Hi Hj).
Qed.

Lemma symmetrized_symmetric a n i j :
  shape a n n -> (i < n)%nat -> (j < n)%nat ->
  get (symmetrized a) i j = get (symmetrized a) j i.
Proof.
  intros H Hi Hj.
  rewrite (get_symmetrized H Hi Hj), (get_symmetrized H Hj Hi).
  rewrite (Nat.eqb_sym j i).
  destruct (Nat.eqb i j); [reflexivity |].
  now rewrite Qplus_comm_eq.
Qed.

(** The divisor of line 145: it is defined, it is an absolute value of the
    matrix, no absolute value is larger, and it is at least 1 because of the
    diagonal. *)
Lemma largest_of_symmetrized a n :
  shape a n n -> (0 < n)%nat ->
  exists top,
    Np.max (Np.abs (symmetrized a)) = Some top /\
    (1 <= top)%Q /\
    (forall i j, (i < n)%nat -> (j < n)%nat ->
       (Qabs (get (symmetrized a) i j) <= top)%Q) /\
    (exists i j, (i < n)%nat /\ (j < n)%nat /\
       Qabs (get (symmetrized a) i j) = top).
Proof.
  intros H Hn.
  pose proof (symmetrized_shape H Hn) as HS.
  assert (HA : shape (Np.abs (symmetrized a)) n n)
    by (unfold Np.abs; now apply shape_map).
  destruct (max_defined HA Hn Hn) as [top Htop].
  destruct (max_spec HA Htop) as [Hle Hex].
  assert (Hget : forall i j, (i < n)%nat -> (j < n)%nat ->
            get (Np.abs (symmetrized a)) i j
            = Qabs (get (symmetrized a) i j))
    by (intros i j Hi Hj; unfold Np.abs; now apply (@get_map Qabs _ n n)).
  exists top. split; [exact Htop |]. split; [| split].
  - specialize (Hle 0%nat 0%nat Hn Hn).
    rewrite (Hget 0%nat 0%nat Hn Hn) in Hle.
    rewrite (get_symmetrized H Hn Hn) in Hle. exact Hle.
  - intros i j Hi Hj. rewrite <- (Hget i j Hi Hj). now apply Hle.
  - destruct Hex as (i & j & Hi & Hj & E).
    exists i, j. repeat split; auto. now rewrite <- (Hget i j Hi Hj).
Qed.

Lemma correlation_sample_run (w : World) :
  let d := draw_normal_rows 8 8 (rng w) in
  exists top,
    Np.max (Np.abs (symmetrized (fst d))) = Some top /\
    forall w', rng w' = rng w ->
      correlation_sample w'
      = Returned (div_scalar (symmetrized (fst d)) top) (set_rng (snd d) w').
Proof.
  intros d.
  assert (H : shape (fst d) 8 8) by apply draw_normal_rows_shape.
  destruct (@largest_of_symmetrized (fst d) 8%nat H) as (top & Htop & _);
    [lia |].
  exists top. split; [exact Htop |].
  intros w' Hw. unfold correlation_sample.
  change (length variables) with 8%nat. cbv zeta.
  unfold np_random_randn2. rewrite bind_run, with_rng_run, Hw. fold d.
  unfold normalized. rewrite Htop. apply ret_run.
Qed.

Lemma get_normalized m top n i j :
  shape m n n -> (i < n)%nat -> (j < n)%nat ->
  get (div_scalar m top) i j = (get m i j / top)%Q.
Proof.
  intros H Hi Hj. unfold div_scalar.
  apply (@get_map (fun x => x / top)%Q m n n i j H Hi Hj).
Qed.

Lemma Qdiv_within_unit (x top : Q) :
  (1 <= top)%Q -> (Qabs x <= top)%Q -> (-1 <= x / top <= 1)%Q.
Proof.
  intros H1 Hx.
  assert (Hpos : (0 < top)%Q) by lra.
  apply Qabs_Qle_condition in Hx. destruct Hx as [Hlo Hhi]. split.
  - apply Qle_shift_div_l; [exact Hpos | lra].
  - apply Qle_shift_div_r; [exact Hpos | lra].
Qed.

Lemma Qabs_div_largest (x top : Q) :
  (1 <= top)%Q -> Qabs x = top -> (Qabs (x / top) == 1)%Q.
Proof.
  intros H1 Hx.
  assert (Hpos : (0 < top)%Q) by lra.
  unfold Qdiv. rewrite Qabs_Qmult, Qabs_Qinv, Hx.
  rewrite (Qabs_pos top) by lra.
  field. lra.
Qed.

Lemma entries_forall (P : Q -> Prop) m r c :
  shape m r c ->
  (forall i j, (i < r)%nat -> (j < c)%nat -> P (get m i j)) ->
  Forall (Forall P) m.
Proof.
  intros H HP. apply Forall_forall. intros row Hrow.
  apply Forall_forall. intros x Hx.
  destruct (@in_concat_get m r c x H) as (i & j & Hi & Hj & <-).
  - apply in_concat. now exists row.
  - now apply HP.
Qed.

(** C5. The matrix has 8 rows of 8 entries and is symmetric, whatever was
    drawn. *)
Theorem correlation_matrix_symmetric (w : World) :
  exists m w',
    correlation_sample w = Returned m w' /\
    shape m 8 8 /\
    forall i j, (i < 8)%nat -> (j < 8)%nat -> get m i j = get m j i.
Proof.
  destruct (correlation_sample_run w) as (top & _ & Hrun).
  pose proof (draw_normal_rows_shape 8 8 (rng w)) as H.
  assert (HS : shape (symmetrized (fst (draw_normal_rows 8 8 (rng w)))) 8 8)
    by (apply symmetrized_shape; [exact H | lia]).
  eexists _, _. split; [now apply Hrun |].
  split; [unfold div_scalar; now apply shape_map |].
  intros i j Hi Hj.
  rewrite (get_normalized top HS Hi Hj), (get_normalized top HS Hj Hi).
  now rewrite (symmetrized_symmetric H Hi Hj).
Qed.

(** C6. The matrix has 8 rows of 8 entries, and every entry is in
    [[-1, 1]]. *)
Theorem correlation_matrix_shape_and_range (w : World) :
  exists m w',
    correlation_sample w = Returned m w' /\
    length m = 8%nat /\
    Forall (fun row => length row = 8%nat) m /\
    Forall (Forall (fun x => -1 <= x <= 1)%Q) m.
Proof.
  pose proof (draw_normal_rows_shape 8 8 (rng w)) as H.
  destruct (correlation_sample_run w) as (top & Htop & Hrun).
  destruct (@largest_of_symmetrized _ 8%nat H) as (top' & Htop' & H1 & Hle & _);
    [lia |].
  rewrite Htop in Htop'. injection Htop' as <-.
  assert (HS : shape (symmetrized (fst (draw_normal_rows 8 8 (rng w)))) 8 8)
    by (apply symmetrized_shape; [exact H | lia]).
  assert (HN : shape (div_scalar
                        (symmetrized (fst (draw_normal_rows 8 8 (rng w))))
                        top) 8 8)
    by (unfold div_scalar; now apply shape_map).
  eexists _, _. split; [now apply Hrun |].
  split; [apply HN |]. split; [apply HN |].
  apply (@entries_forall _ _ 8%nat 8%nat HN). intros i j Hi Hj.
  rewrite (get_normalized top HS Hi Hj).
  apply Qdiv_within_unit; [exact H1 | now apply Hle].
Qed.

(** C10. The eight diagonal entries are all 1 divided by the largest
    absolute value of the matrix before the division, which is at most 1,
    and some entry of the result has absolute value 1. *)
Theorem correlation_diagonal_is_one_over_largest (w : World) :
  exists m w' top,
    correlation_sample w = Returned m w' /\
    Np.max (Np.abs (symmetrized (fst (draw_normal_rows 8 8 (rng w)))))
      = Some top /\
    (forall i, (i < 8)%nat -> get m i i = (1 / top)%Q) /\
    (forall i k, (i < 8)%nat -> (k < 8)%nat -> get m i i = get m k k) /\
    (1 / top <= 1)%Q /\
    (exists i j, (i < 8)%nat /\ (j < 8)%nat /\ (Qabs (get m i j) == 1)%Q).
Proof.
  pose proof (draw_normal_rows_shape 8 8 (rng w)) as H.
  destruct (correlation_sample_run w) as (top & Htop & Hrun).
  destruct (@largest_of_symmetrized _ 8%nat H)
    as (top' & Htop' & H1 & _ & (i0 & j0 & Hi0 & Hj0 & Hmax));
    [lia |].
  rewrite Htop in Htop'. injection Htop' as <-.
  assert (HS : shape (symmetrized (fst (draw_normal_rows 8 8 (rng w)))) 8 8)
    by (apply symmetrized_shape; [exact H | lia]).
  assert (Hdiag : forall i, (i < 8)%nat ->
            get (div_scalar
                   (symmetrized (fst (draw_normal_rows 8 8 (rng w)))) top)
                i i = (1 / top)%Q).
  { intros i Hi. rewrite (get_normalized top HS Hi Hi).
    rewrite (get_symmetrized H Hi Hi), Nat.eqb_refl. reflexivity. }
  eexists _, _, top. split; [now apply Hrun |].
  split; [exact Htop |]. split; [exact Hdiag |]. split; [| split].
  - intros i k Hi Hk. now rewrite (Hdiag i Hi), (Hdiag k Hk).
  - apply Qle_shift_div_r; lra.
  - exists i0, j0. repeat split; auto.
    rewrite (get_normalized top HS Hi0 Hj0).
    now apply Qabs_div_largest.
Qed.

(** ** The generators and the driver *)

Lemma figures_app t1 t2 : figures (t1 ++ t2) = figures t1 ++ figures t2.
Proof.
  induction t1 as [|[l | p fig] t1 IH]; simpl; auto. now rewrite IH.
Qed.

Lemma paths_app t1 t2 : paths (t1 ++ t2) = paths t1 ++ paths t2.
Proof.
  induction t1 as [|[l | p fig] t1 IH]; simpl; auto. now rewrite IH.
Qed.

(** The end of each generator: the write, then the confirmation line. *)
Lemma write_then_print_effects fig p msg (u : World) :
  let o := bind (fig_write_html fig p) (fun _ => print msg) u in
  rng (final_world o) = rng u /\
  figures (trace (final_world o)) = figures (trace u) ++ [fig] /\
  paths (trace (final_world o)) = paths (trace u) ++ [p].
Proof.
  cbv zeta. rewrite bind_run. unfold fig_write_html.
  destruct (write_html fig p (fs u)) as [disk [e |]];
    cbn [final_world log set_fs rng trace print];
    rewrite ?figures_app, ?paths_app; cbn [figures paths];
    rewrite ?app_nil_r; auto.
Qed.

(** Splits the goal of a generator at its write and confirmation line. *)
Ltac end_of_generator msg :=
  match goal with
  | |- context [bind (fig_write_html ?fig ?p) ?k ?u] =>
      destruct (write_then_print_effects fig p msg u) as (H1 & H2 & H3)
  end.

Lemma generate_timeseries_effects (w : World) :
  exists hr bp ox s,
  forall w', rng w' = rng w ->
    let o := generate_timeseries_visualization w' in
    rng (final_world o) = s /\
    map synthesized (figures (trace (final_world o)))
      = map synthesized (figures (trace w')) ++ [Series [hr; bp; ox]] /\
    paths (trace (final_world o))
      = paths (trace w') ++ ["visualizations/timeseries.html"%string].
Proof.
  destruct (timeseries_sample_run w) as (ts0 & E0 & _).
  match type of E0 with
  | _ = Returned {| timestamps := _; heart_rate := ?a;
                    blood_pressure_sys := ?b; spo2 := ?c |} (set_rng ?s _) =>
      exists a, b, c, s
  end.
  clear E0 ts0. intros w' Hw. cbv zeta.
  destruct (timeseries_sample_run w') as (ts & E & _).
  rewrite Hw in E.
  unfold generate_timeseries_visualization. rewrite bind_run, E.
  end_of_generator "✓ Generated timeseries.html"%string.
  destruct (iter_tick hours w') as (_ & _ & _ & _ & Ht).
  cbn [rng trace set_rng] in H1, H2, H3. rewrite Ht in H2, H3.
  split; [exact H1 |]. split; [| exact H3].
  rewrite H2, map_app. reflexivity.
Qed.

Lemma generate_demographics_effects (w : World) :
  exists rows s,
  forall w', rng w' = rng w ->
    let o := generate_demographics_visualization w' in
    rng (final_world o) = s /\
    map synthesized (figures (trace (final_world o)))
      = map synthesized (figures (trace w')) ++ [Counts (map count rows)] /\
    paths (trace (final_world o))
      = paths (trace w') ++ ["visualizations/demographics.html"%string].
Proof.
  destruct (demographics_sample_run w) as (rows & s & _ & _ & Hrun).
  exists rows, s. intros w' Hw. cbv zeta.
  unfold generate_demographics_visualization.
  rewrite bind_run, (Hrun w' Hw).
  end_of_generator "✓ Generated demographics.html"%string.
  cbn [rng trace set_rng] in H1, H2, H3.
  split; [exact H1 |]. split; [| exact H3].
  rewrite H2, map_app. reflexivity.
Qed.

Lemma generate_correlation_effects (w : World) :
  exists m s,
  forall w', rng w' = rng w ->
    let o := generate_correlation_visualization w' in
    rng (final_world o) = s /\
    map synthesized (figures (trace (final_world o)))
      = map synthesized (figures (trace w')) ++ [Matrix m] /\
    paths (trace (final_world o))
      = paths (trace w') ++ ["visualizations/correlation.html"%string].
Proof.
  destruct (correlation_sample_run w) as (top & _ & Hrun).
  eexists _, _. intros w' Hw. cbv zeta.
  unfold generate_correlation_visualization.
  rewrite bind_run, (Hrun w' Hw).
  end_of_generator "✓ Generated correlation.html"%string.
  cbn [rng trace set_rng] in H1, H2, H3.
  split; [exact H1 |]. split; [| exact H3].
  rewrite H2, map_app. reflexivity.
Qed.

(** [main], by the outcome of each generator in turn. *)
Lemma main_cases (w : World) :
  let w0 :=
    log (Print (str_times "-" 50))
        (log (Print "Generating interactive Plotly visualizations...") w) in
  match generate_timeseries_visualization w0 with
  | Raised e w1 => main w = Raised e w1
  | Returned _ w1 =>
      match generate_demographics_visualization w1 with
      | Raised e w2 => main w = Raised e w2
      | Returned _ w2 =>
          match generate_correlation_visualization w2 with
          | Raised e w3 => main w = Raised e w3
          | Returned _ w3 =>
              main w =
              Returned tt
                (fold_left (fun u line => log (Print line) u)
                   [ str_times "-" 50;
                     "All visualizations generated successfully!";
                     String "010" "To view the visualizations:";
                     "1. Open index.html in a web browser";
                     "2. Or deploy to GitHub Pages" ]%string
                   w3)
          end
      end
  end.
Proof.
  cbv zeta. unfold main.
  rewrite bind_run, print_run, bind_run, print_run, bind_run.
  destruct (generate_timeseries_visualization _) as [[] w1 | e w1];
    [| reflexivity].
  rewrite bind_run.
  destruct (generate_demographics_visualization w1) as [[] w2 | e w2];
    [| reflexivity].
  rewrite bind_run.
  destruct (generate_correlation_visualization w2) as [[] w3 | e w3];
    [| reflexivity].
  rewrite !bind_run, !print_run. reflexivity.
Qed.

Lemma paths_footer (ls : list string) (u : World) :
  paths (trace (fold_left (fun u line => log (Print line) u) ls u))
  = paths (trace u) /\
  figures (trace (fold_left (fun u line => log (Print line) u) ls u))
  = figures (trace u) /\
  rng (fold_left (fun u line => log (Print line) u) ls u) = rng u.
Proof.
  revert u; induction ls as [|l ls IH]; intros u; cbn [fold_left]; auto.
  destruct (IH (log (Print l) u)) as (H1 & H2 & H3).
  rewrite H1, H2, H3. cbn [log trace rng].
  rewrite paths_app, figures_app. cbn [paths figures].
  now rewrite !app_nil_r.
Qed.

(** C9. [main] runs the time-series, the demographics and the correlation
    generator in this order, each in the state the one before left; when one
    raises, the outcome of [main] is that of the generator, with the same
    exception and the state as the generator left it, so that nothing more was
    run.  Seen from outside: the files handed to [write_html] are the first
    [k] of the three, in order, and all three when [main] returns. *)
Theorem main_runs_in_order_and_stops_at_first_exception (w : World) :
  (let w0 :=
     log (Print (str_times "-" 50))
         (log (Print "Generating interactive Plotly visualizations...") w) in
   match generate_timeseries_visualization w0 with
   | Raised e w1 => main w = Raised e w1
   | Returned _ w1 =>
       match generate_demographics_visualization w1 with
       | Raised e w2 => main w = Raised e w2
       | Returned _ w2 =>
           match generate_correlation_visualization w2 with
           | Raised e w3 => main w = Raised e w3
           | Returned _ w3 =>
               main w =
               Returned tt
                 (fold_left (fun u line => log (Print line) u)
                    [ str_times "-" 50;
                      "All visualizations generated successfully!";
                      String "010" "To view the visualizations:";
                      "1. Open index.html in a web browser";
                      "2. Or deploy to GitHub Pages" ]%string
                    w3)
           end
       end
   end) /\
  exists k,
    (1 <= k <= 3)%nat /\
    paths (trace (final_world (main w)))
      = paths (trace w)
        ++ firstn k [ "visualizations/timeseries.html";
                      "visualizations/demographics.html";
                      "visualizations/correlation.html" ]%string /\
    (raised_by (main w) = None -> k = 3%nat).
Proof.
  split; [apply main_cases |].
  pose proof (main_cases w) as HM. cbv zeta in HM.
  set (w0 := log (Print (str_times "-" 50))
               (log (Print "Generating interactive Plotly visualizations...")
                    w)) in HM.
  assert (P0 : paths (trace w0) = paths (trace w)).
  { subst w0. cbn [log trace]. rewrite !paths_app. cbn [paths].
    now rewrite !app_nil_r. }
  destruct (generate_timeseries_effects w0) as (hr & bp & ox & s1 & E1).
  specialize (E1 w0 eq_refl). cbv zeta in E1. destruct E1 as (_ & _ & P1).
  rewrite P0 in P1.
  destruct (generate_timeseries_visualization w0) as [[] w1 | e w1].
  2:{ rewrite HM. exists 1%nat. cbn [final_world raised_by firstn] in *.
      split; [lia |]. split; [exact P1 | discriminate]. }
  cbn [final_world] in P1.
  destruct (generate_demographics_effects w1) as (rows & s2 & E2).
  specialize (E2 w1 eq_refl). cbv zeta in E2. destruct E2 as (_ & _ & P2).
  rewrite P1, <- app_assoc in P2.
  destruct (generate_demographics_visualization w1) as [[] w2 | e w2].
  2:{ rewrite HM. exists 2%nat. cbn [final_world raised_by firstn] in *.
      split; [lia |]. split; [exact P2 | discriminate]. }
  cbn [final_world] in P2.
  destruct (generate_correlation_effects w2) as (m & s3 & E3).
  specialize (E3 w2 eq_refl). cbv zeta in E3. destruct E3 as (_ & _ & P3).
  rewrite P2, <- app_assoc in P3.
  destruct (generate_correlation_visualization w2) as [[] w3 | e w3].
  2:{ rewrite HM. exists 3%nat. cbn [final_world raised_by firstn] in *.
      split; [lia |]. split; [exact P3 | discriminate]. }
  rewrite HM. exists 3%nat. cbn [final_world raised_by firstn] in *.
  split; [lia |]. split; [| reflexivity].
  match goal with
  | |- paths (trace (fold_left _ ?ls ?u)) = _ =>
      destruct (paths_footer ls u) as (-> & _)
  end.
  exact P3.
Qed.

(** ** Runs from one seed *)

(** The arrays a completed [main] hands to [write_html] are fixed by the
    state of the generator it starts with. *)
Lemma main_data (w0 : World) :
  exists hr bp ox ns m,
  forall w u, rng w = rng w0 -> main w = Returned tt u ->
    map synthesized (figures (trace u))
    = map synthesized (figures (trace w))
      ++ [Series [hr; bp; ox]; Counts ns; Matrix m].
Proof.
  destruct (generate_timeseries_effects w0) as (hr & bp & ox & s1 & E1).
  destruct (generate_demographics_effects (set_rng s1 w0))
    as (rows & s2 & E2).
  destruct (generate_correlation_effects (set_rng s2 w0)) as (m & s3 & E3).
  exists hr, bp, ox, (map count rows), m.
  intros w u Hw Hmain.
  pose proof (main_cases w) as HM. cbv zeta in HM.
  set (w1 := log (Print (str_times "-" 50))
               (log (Print "Generating interactive Plotly visualizations...")
                    w)) in HM.
  assert (F1 : figures (trace w1) = figures (trace w)).
  { subst w1. cbn [log trace]. rewrite !figures_app. cbn [figures].
    now rewrite !app_nil_r. }
  specialize (E1 w1 Hw). cbv zeta in E1. destruct E1 as (R1 & D1 & _).
  rewrite F1 in D1.
  destruct (generate_timeseries_visualization w1) as [[] w2 | e w2];
    [| congruence].
  cbn [final_world] in R1, D1.
  specialize (E2 w2 R1). cbv zeta in E2. destruct E2 as (R2 & D2 & _).
  rewrite D1, <- app_assoc in D2.
  destruct (generate_demographics_visualization w2) as [[] w3 | e w3];
    [| congruence].
  cbn [final_world] in R2, D2.
  specialize (E3 w3 R2). cbv zeta in E3. destruct E3 as (_ & D3 & _).
  rewrite D2, <- app_assoc in D3.
  destruct (generate_correlation_visualization w3) as [[] w4 | e w4];
    [| congruence].
  cbn [final_world] in D3.
  rewrite HM in Hmain. injection Hmain as <-.
  cbn [log trace]. rewrite !figures_app. cbn [figures].
  rewrite !app_nil_r. exact D3.
Qed.

(** C2. Two runs of the script from one seed value, whatever the clocks,
    the disks and the earlier states of the generator are, hand the same
    arrays to [write_html] when both complete: the same three vital-sign
    sequences, the same counts and the same matrix. *)
Theorem same_seed_same_data
    (v : Z) (s1 s2 : RandomState) (c1 c2 : nat -> Z)
    (disk1 disk2 : FileSystem) (u1 u2 : World) :
  script_seeded v (boot s1 c1 disk1) = Returned tt u1 ->
  script_seeded v (boot s2 c2 disk2) = Returned tt u2 ->
  map synthesized (figures (trace u1)) = map synthesized (figures (trace u2))
  /\ exists hr bp ox ns m,
       map synthesized (figures (trace u1))
       = [Series [hr; bp; ox]; Counts ns; Matrix m].
Proof.
  unfold script_seeded. rewrite !bind_run. unfold np_random_seed.
  intros H1 H2.
  destruct (main_data (set_rng (seeded v) (boot s1 c1 disk1)))
    as (hr & bp & ox & ns & m & Hdata).
  pose proof (Hdata (set_rng (seeded v) (boot s1 c1 disk1)) u1 eq_refl H1)
    as D1.
  pose proof (Hdata (set_rng (seeded v) (boot s2 c2 disk2)) u2 eq_refl H2)
    as D2.
  cbn [set_rng boot trace figures map app] in D1, D2.
  split; [congruence |].
  exists hr, bp, ox, ns, m. exact D1.
Qed.

End ScriptFacts.

(** * Runs on the small runtime *)

Lemma demo_randint_in_range : randint_in_range demo.
Proof.
  intros low high s H. cbn [randint demo demo_randint fst].
  pose proof (Z.mod_pos_bound (Z.of_nat s) (high - low)) as B. lia.
Qed.

(** With room for three files the script completes: three writes in order,
    ten lines printed. *)
Example demo_run_completes :
  let o := @script demo (demo_world 0 3) in
  raised_by o = None /\
  paths (trace (final_world o))
  = [ "visualizations/timeseries.html";
      "visualizations/demographics.html";
      "visualizations/correlation.html" ]%string /\
  length (printed (trace (final_world o))) = 10%nat.
Proof. vm_compute. repeat split. Qed.

(** With room for one file the second write raises: the third generator is
    not run, no closing line is printed, and the generator state is the one
    after 216 normal draws and 15 integer draws. *)
Example demo_run_stops_at_second_write :
  let o := @script demo (demo_world 0 1) in
  raised_by o = Some (OSError "No space left on device") /\
  paths (trace (final_world o))
  = [ "visualizations/timeseries.html";
      "visualizations/demographics.html" ]%string /\
  printed (trace (final_world o))
  = [ "Generating interactive Plotly visualizations...";
      "--------------------------------------------------";
      "✓ Generated timeseries.html" ]%string /\
  rng (final_world o) = (42 + 216 + 15)%nat.
Proof. vm_compute. repeat split. Qed.

(** C1, on the code.  On the small runtime the largest absolute value before
    the division is 3 (the entries (2, 6) and (3, 7), where both draws are 3
    or both are -3), so the diagonal comes out as 1/3, not 1. *)
Theorem correlation_diagonal_not_one :
  exists m w' top,
    @correlation_sample demo (demo_world 0 3) = Returned m w' /\
    Np.max (Np.abs (symmetrized (fst (@draw_normal_rows demo 8 8 0%nat))))
      = Some top /\
    (top == 3)%Q /\
    (Np.get m 0 0 == 1 # 3)%Q /\
    ~ (Np.get m 0 0 == 1)%Q.
Proof.
  destruct (@correlation_sample_run demo (demo_world 0 3))
    as (top & Htop & Hrun).
  exists (Np.div_scalar
            (symmetrized (fst (@draw_normal_rows demo 8 8 0%nat))) top).
  eexists _, top. split; [now apply Hrun |].
  split; [exact Htop |].
  vm_compute in Htop. injection Htop as <-.
  split; [| split]; vm_compute; [reflexivity | reflexivity | discriminate].
Qed.

(** C2, on two runs that differ in the state of the generator before the
    seeding, in the clock and in the disk. *)
Lemma same_seed_same_data_witness :
  let u1 := final_world
              (@script_seeded demo 42
                 (@boot demo 5%nat (demo_clock 0) (3%nat, []))) in
  let u2 := final_world
              (@script_seeded demo 42
                 (@boot demo 9%nat (demo_clock 1000) (7%nat, []))) in
  map synthesized (figures (trace u1)) = map synthesized (figures (trace u2))
  /\ exists hr bp ox ns m,
       map synthesized (figures (trace u1))
       = [Series [hr; bp; ox]; Counts ns; Matrix m].
Proof.
  cbv zeta.
  apply (@same_seed_same_data demo 42 5%nat 9%nat
           (demo_clock 0) (demo_clock 1000) (3%nat, []) (7%nat, []));
    vm_compute; reflexivity.
Defined.

(** C4, on the small runtime. *)
Lemma demographics_rows_and_counts_witness :
  exists data w',
    @demographics_sample demo (demo_world 0 3) = Returned data w' /\
    length data = 15%nat /\
    map (fun r => (age_group r, outcome r)) data
      = list_prod age_groups outcomes /\
    NoDup (list_prod age_groups outcomes) /\
    Forall (fun r => 10 <= count r < 100)%Z data.
Proof.
  exact (@demographics_rows_and_counts demo (demo_world 0 3)
           demo_randint_in_range).
Defined.

(** C7, at hour 5 on the small runtime. *)
Lemma heart_rate_walk_plus_sinusoid_witness :
  exists d w',
    @timeseries_sample demo (demo_world 0 3) = Returned d w' /\
    (nth 5 (heart_rate d) 0
     == 70 + Np.total (firstn 6 (fst (@draw_normals demo 72 0%nat)))
        + 10 * demo_sin (inject_Z 5 * 2 * Np.pi / 24))%Q /\
    (inject_Z 29 * 2 * Np.pi / 24 == inject_Z 5 * 2 * Np.pi / 24 + 2 * Np.pi)%Q.
Proof.
  apply (@heart_rate_walk_plus_sinusoid demo (demo_world 0 3) 5%nat). lia.
Defined.

(** C8, as stated, fails.  On a clock that starts at 0 and never goes back,
    the last timestamp is about an hour before 0: it is none of the readings
    of that clock. *)
Lemma timestamps_do_not_end_at_now :
  exists d w',
    @timeseries_sample demo (demo_world 0 3) = Returned d w' /\
    last (timestamps d) 0%Z = (-3599999503)%Z /\
    forall k : nat, last (timestamps d) 0%Z <> demo_clock 0 k.
Proof.
  destruct (@timeseries_sample_run demo (demo_world 0 3))
    as (ts & E & Hl & Hn).
  eexists _, _. split; [exact E |]. cbn [timestamps].
  rewrite (@NpFacts.last_nth _ ts 71%nat 0%Z Hl).
  rewrite (Hn 71%nat) by (unfold hours; lia).
  split; [vm_compute; reflexivity |].
  intros k. unfold demo_clock, timedelta_hours, hours.
  cbn [demo_world boot clock ticks]. unfold demo_clock. lia.
Qed.

(** * More on the arrays *)

Module NpMore.

Import Np NpFacts.
Local Open Scope Q_scope.

Lemma total_scale (c : Q) xs :
  total (map (fun a => a * c) xs) == total xs * c.
Proof.
  induction xs as [|x xs IH]; simpl.
  - ring.
  - rewrite IH. ring.
Qed.

(** *** Rounding *)









End NpMore.

(** * More on the script *)

Section ScriptMore.

Context {R : Runtime}.

Import Np NpFacts NpMore.

Lemma ticks_set_rng (s : RandomState) (w : World) :
  ticks (set_rng s w) = ticks w.
Proof. reflexivity. Qed.

Lemma clock_set_rng (s : RandomState) (w : World) :
  clock (set_rng s w) = clock w.
Proof. reflexivity. Qed.

Lemma fs_set_rng (s : RandomState) (w : World) : fs (set_rng s w) = fs w.
Proof. reflexivity. Qed.

Lemma trace_set_rng (s : RandomState) (w : World) :
  trace (set_rng s w) = trace w.
Proof. reflexivity. Qed.

(** ** The draws of one call *)

Lemma draw_normals_app a b s :
  draw_normals (a + b) s =
  (fst (draw_normals a s) ++ fst (draw_normals b (snd (draw_normals a s))),
   snd (draw_normals b (snd (draw_normals a s)))).
Proof.
  revert s; induction a as [|a IH]; intros s.
  - simpl. now destruct (draw_normals b s).
  - cbn [Nat.add draw_normals].
    destruct (standard_normal s) as [x s1].
    rewrite (IH s1).
    destruct (draw_normals a s1) as [xs s2]. cbn [fst snd].
    now destruct (draw_normals b s2).
Qed.

(** [randn(r, c)] is [randn(r * c)] cut into rows. *)
Lemma draw_normal_rows_flat r c s :
  concat (fst (draw_normal_rows r c s)) = fst (draw_normals (r * c) s) /\
  snd (draw_normal_rows r c s) = snd (draw_normals (r * c) s).
Proof.
  revert s; induction r as [|r IH]; intros s.
  - simpl. auto.
  - cbn [Nat.mul draw_normal_rows]. rewrite draw_normals_app.
    destruct (draw_normals c s) as [row s1]. cbn [fst snd].
    destruct (IH s1) as [E1 E2].
    destruct (draw_normal_rows r c s1) as [rows s2]. cbn [fst snd] in *.
    cbn [concat]. now rewrite E1, E2.
Qed.

Lemma get_concat m r c i j :
  shape m r c -> (i < r)%nat -> (j < c)%nat ->
  get m i j = nth (i * c + j) (concat m) 0%Q.
Proof.
  revert r i; induction m as [|row m IH]; intros r i [Hr Hc] Hi Hj;
    simpl in Hr; [lia |].
  inversion Hc; subst.
  destruct i as [|i]; cbn [concat].
  - unfold get. cbn [nth Nat.mul Nat.add]. now rewrite app_nth1 by lia.
  - rewrite app_nth2 by (cbn [Nat.mul]; lia).
    replace (S i * length row + j - length row)%nat
      with (i * length row + j)%nat by (cbn [Nat.mul]; lia).
    change (get (row :: m) (S i) j) with (get m i j).
    apply (IH (length m)); [split; auto | simpl in Hi; lia | exact Hj].
Qed.

Lemma drawn_entry s i j :
  (i < 8)%nat -> (j < 8)%nat ->
  get (fst (draw_normal_rows 8 8 s)) i j
  = nth (8 * i + j) (fst (draw_normals 64 s)) 0%Q.
Proof.
  intros Hi Hj.
  rewrite (get_concat (draw_normal_rows_shape 8 8 s) Hi Hj).
  destruct (draw_normal_rows_flat 8 8 s) as [-> _].
  now rewrite (Nat.mul_comm i 8).
Qed.

(** ** The correlation matrix, entry by entry *)

Lemma correlation_sample_facts (w : World) :
  exists m top,
    correlation_sample w
    = Returned m (set_rng (snd (draw_normal_rows 8 8 (rng w))) w) /\
    (1 <= top)%Q /\
    shape m 8 8 /\
    (forall i j, (i < 8)%nat -> (j < 8)%nat ->
       get m i j
       = (get (symmetrized (fst (draw_normal_rows 8 8 (rng w)))) i j
          / top)%Q) /\
    (forall i j, (i < 8)%nat -> (j < 8)%nat ->
       (Qabs (get (symmetrized (fst (draw_normal_rows 8 8 (rng w)))) i j)
        <= top)%Q) /\
    (exists i j, (i < 8)%nat /\ (j < 8)%nat /\
       Qabs (get (symmetrized (fst (draw_normal_rows 8 8 (rng w)))) i j)
       = top).
Proof.
  pose proof (draw_normal_rows_shape 8 8 (rng w)) as H.
  destruct (correlation_sample_run w) as (top & Htop & Hrun).
  destruct (@largest_of_symmetrized _ 8%nat H)
    as (top' & Htop' & H1 & Hle & Hex); [lia |].
  rewrite Htop in Htop'. injection Htop' as <-.
  assert (HS : shape (symmetrized (fst (draw_normal_rows 8 8 (rng w)))) 8 8)
    by (apply symmetrized_shape; [exact H | lia]).
  eexists _, top. split; [now apply Hrun |].
  split; [exact H1 |]. split; [| split; [| split]].
  - unfold div_scalar. now apply shape_map.
  - intros i j Hi Hj. apply (get_normalized top HS Hi Hj).
  - exact Hle.
  - exact Hex.
Qed.

Lemma symmetrized_entry s i j :
  (i < 8)%nat -> (j < 8)%nat -> i <> j ->
  get (symmetrized (fst (draw_normal_rows 8 8 s))) i j
  = ((nth (8 * i + j) (fst (draw_normals 64 s)) 0
      + nth (8 * j + i) (fst (draw_normals 64 s)) 0) / 2)%Q.
Proof.
  intros Hi Hj Hij.
  rewrite (get_symmetrized (draw_normal_rows_shape 8 8 s) Hi Hj).
  destruct (Nat.eqb_spec j i) as [-> | _]; [now destruct Hij |].
  now rewrite (drawn_entry s Hi Hj), (drawn_entry s Hj Hi).
Qed.

Lemma symmetrized_diagonal s i :
  (i < 8)%nat -> get (symmetrized (fst (draw_normal_rows 8 8 s))) i i = 1%Q.
Proof.
  intros Hi.
  rewrite (get_symmetrized (draw_normal_rows_shape 8 8 s) Hi Hi).
  now rewrite Nat.eqb_refl.
Qed.

(** X1. The whole matrix from the 64 draws, taken in row-major order: with
    [sym i j] the mean of the draws at [(i, j)] and [(j, i)], the divisor is
    the largest of 1 and the [|sym i j|], an entry off the diagonal is
    [sym i j] over the divisor and a diagonal entry is 1 over it. *)
Theorem correlation_matrix_from_draws (w : World) :
  let xs := fst (draw_normals 64 (rng w)) in
  let sym := fun i j =>
    ((nth (8 * i + j) xs 0 + nth (8 * j + i) xs 0) / 2)%Q in
  exists m w' top,
    correlation_sample w = Returned m w' /\
    (1 <= top)%Q /\
    (forall i j, (i < 8)%nat -> (j < 8)%nat -> i <> j ->
       (Qabs (sym i j) <= top)%Q) /\
    (top = 1%Q \/
     exists i j, (i < 8)%nat /\ (j < 8)%nat /\ i <> j /\
                 Qabs (sym i j) = top) /\
    (forall i, (i < 8)%nat -> get m i i = (1 / top)%Q) /\
    (forall i j, (i < 8)%nat -> (j < 8)%nat -> i <> j ->
       get m i j = (sym i j / top)%Q).
Proof.
  intros xs sym.
  destruct (correlation_sample_facts w)
    as (m & top & E & H1 & _ & Hget & Hle & (i0 & j0 & Hi0 & Hj0 & Hmax)).
  exists m, (set_rng (snd (draw_normal_rows 8 8 (rng w))) w), top.
  split; [exact E |]. split; [exact H1 |]. split; [| split; [| split]].
  - intros i j Hi Hj Hij. subst sym xs. cbv beta.
    rewrite <- (symmetrized_entry (rng w) Hi Hj Hij). now apply Hle.
  - destruct (Nat.eq_dec i0 j0) as [-> | Hne].
    + left. rewrite (symmetrized_diagonal (rng w) Hj0) in Hmax.
      now rewrite <- Hmax.
    + right. exists i0, j0. repeat split; auto. subst sym xs. cbv beta.
      now rewrite <- (symmetrized_entry (rng w) Hi0 Hj0 Hne).
  - intros i Hi.
    now rewrite (Hget i i Hi Hi), (symmetrized_diagonal (rng w) Hi).
  - intros i j Hi Hj Hij. subst sym xs. cbv beta.
    now rewrite (Hget i j Hi Hj), (symmetrized_entry (rng w) Hi Hj Hij).
Qed.

(** X2. The diagonal of the result is 1 exactly when no mean of two mirrored
    draws is larger than 1 in absolute value. *)
Theorem correlation_diagonal_one_iff (w : World) :
  let xs := fst (draw_normals 64 (rng w)) in
  let sym := fun i j =>
    ((nth (8 * i + j) xs 0 + nth (8 * j + i) xs 0) / 2)%Q in
  exists m w',
    correlation_sample w = Returned m w' /\
    ((forall i, (i < 8)%nat -> (get m i i == 1)%Q) <->
     (forall i j, (i < 8)%nat -> (j < 8)%nat -> i <> j ->
        (Qabs (sym i j) <= 1)%Q)).
Proof.
  intros xs sym.
  destruct (correlation_sample_facts w)
    as (m & top & E & H1 & _ & Hget & Hle & (i0 & j0 & Hi0 & Hj0 & Hmax)).
  exists m, (set_rng (snd (draw_normal_rows 8 8 (rng w))) w).
  split; [exact E |].
  assert (Hdiag : forall i, (i < 8)%nat -> get m i i = (1 / top)%Q).
  { intros i Hi.
    now rewrite (Hget i i Hi Hi), (symmetrized_diagonal (rng w) Hi). }
  assert (Hone : (1 / top == 1)%Q <-> (top == 1)%Q).
  { split; intros H.
    - assert (T : (1 / top * top == 1)%Q) by (field; lra).
      rewrite H in T. lra.
    - rewrite H. reflexivity. }
  split.
  - intros Hd i j Hi Hj Hij.
    assert (T : (top == 1)%Q).
    { apply Hone. rewrite <- (Hdiag 0%nat) by lia. apply Hd. lia. }
    subst sym xs. cbv beta.
    rewrite <- (symmetrized_entry (rng w) Hi Hj Hij), <- T. now apply Hle.
  - intros Hoff i Hi. rewrite (Hdiag i Hi). apply Hone.
    destruct (Nat.eq_dec i0 j0) as [-> | Hne].
    + rewrite (symmetrized_diagonal (rng w) Hj0) in Hmax.
      rewrite <- Hmax. reflexivity.
    + specialize (Hoff i0 j0 Hi0 Hj0 Hne). subst sym xs. cbv beta in Hoff.
      rewrite <- (symmetrized_entry (rng w) Hi0 Hj0 Hne), Hmax in Hoff.
      lra.
Qed.

(** X3. The data step of the correlation generator always returns; it takes
    exactly 64 normal draws and changes nothing else of the state: not the
    clock, the disk or the trace. *)
Theorem correlation_sample_takes_64_draws (w : World) :
  exists m,
    correlation_sample w
    = Returned m (set_rng (snd (draw_normals 64 (rng w))) w).
Proof.
  destruct (correlation_sample_facts w) as (m & top & E & _).
  exists m. rewrite E.
  now destruct (draw_normal_rows_flat 8 8 (rng w)) as [_ ->].
Qed.


(** ** The vital signs, from the stream of draws *)

(** The three [randn(72)] calls of the time-series generator take the first,
    the second and the third 72 of 216 successive draws. *)
Lemma three_calls (s : RandomState) :
  let d1 := draw_normals hours s in
  let d2 := draw_normals hours (snd d1) in
  let d3 := draw_normals hours (snd d2) in
  fst (draw_normals 216 s) = fst d1 ++ fst d2 ++ fst d3 /\
  snd (draw_normals 216 s) = snd d3.
Proof.
  cbv zeta. change 216%nat with (hours + (hours + hours))%nat.
  rewrite (draw_normals_app hours (hours + hours) s). cbn [fst snd].
  rewrite (draw_normals_app hours hours (snd (draw_normals hours s))).
  cbn [fst snd]. auto.
Qed.

Lemma timeseries_sample_stream (w : World) :
  let xs := fst (draw_normals 216 (rng w)) in
  exists walk steps noise ts,
    xs = walk ++ steps ++ noise /\
    length walk = 72%nat /\ length steps = 72%nat /\ length noise = 72%nat /\
    length ts = 72%nat /\
    timeseries_sample w =
    Returned
      {| timestamps := ts;
         heart_rate :=
           zip_with Qplus
             (map (Qplus 70) (cumsum walk))
             (map (fun a => 10 * np_sin (a * 2 * pi / 24)) (arange hours))%Q;
         blood_pressure_sys :=
           map (Qplus 120) (cumsum (map (fun a => a * (1 # 2))%Q steps));
         spo2 := clip (map (Qplus 95) (map (fun a => a * 2)%Q noise)) 90 100 |}
      (set_rng (snd (draw_normals 216 (rng w))) (Nat.iter 72 tick w)).
Proof.
  cbv zeta.
  destruct (three_calls (rng w)) as [Exs Es]. cbv zeta in Exs, Es.
  destruct (timeseries_sample_run w) as (ts & E & Hl & _).
  eexists _, _, _, ts. split; [exact Exs |].
  repeat (split; [apply draw_normals_length |]).
  split; [exact Hl |]. rewrite Es. exact E.
Qed.

(** X5. The data step of the time-series generator always returns; it reads
    the clock 72 times, takes exactly 216 normal draws, and changes neither
    the disk nor the trace. *)
Theorem timeseries_sample_takes_216_draws (w : World) :
  exists d w',
    timeseries_sample w = Returned d w' /\
    rng w' = snd (draw_normals 216 (rng w)) /\
    ticks w' = (ticks w + 72)%nat /\
    clock w' = clock w /\
    fs w' = fs w /\
    trace w' = trace w.
Proof.
  destruct (timeseries_sample_stream w)
    as (walk & steps & noise & ts & _ & _ & _ & _ & _ & E).
  destruct (iter_tick 72 w) as (_ & Hc & Ht & Hf & Htr).
  eexists _, _. split; [exact E |].
  rewrite rng_set_rng, ticks_set_rng, clock_set_rng, fs_set_rng,
    trace_set_rng.
  auto.
Qed.

(** X6. The systolic pressure has 72 values; the one at hour [i] is 120 plus
    half the sum of the draws 72 to [72 + i] of the generator's stream: the
    second [randn] call continues where the first one stopped. *)
Theorem blood_pressure_is_half_walk (w : World) :
  let xs := fst (draw_normals 216 (rng w)) in
  exists d w',
    timeseries_sample w = Returned d w' /\
    length (blood_pressure_sys d) = 72%nat /\
    forall i, (i < 72)%nat ->
      (nth i (blood_pressure_sys d) 0
       == 120 + total (firstn (S i) (skipn 72 xs)) * (1 # 2))%Q.
Proof.
  cbv zeta.
  destruct (timeseries_sample_stream w)
    as (walk & steps & noise & ts & Exs & Hw & Hs & Hn & _ & E).
  eexists _, _. split; [exact E |]. cbn [blood_pressure_sys].
  split; [now rewrite length_map, cumsum_length, length_map |].
  intros i Hi.
  rewrite (map_nth_in _ _ 0%Q)
    by (rewrite cumsum_length, length_map, Hs; exact Hi).
  rewrite cumsum_nth by (rewrite length_map, Hs; exact Hi).
  rewrite firstn_map, total_scale.
  rewrite Exs, skipn_app, Hw.
  rewrite (skipn_all2 walk) by (rewrite Hw; apply Nat.le_refl).
  cbn [Nat.sub skipn app].
  rewrite firstn_app, Hs.
  replace (S i - 72)%nat with 0%nat by lia.
  cbn [firstn]. rewrite app_nil_r. reflexivity.
Qed.

(** X7. The oxygen saturation at hour [i] comes from draw [144 + i] of the
    stream: 95 plus twice the draw when that is between 90 and 100, and the
    bound it crossed otherwise. *)
Theorem spo2_is_clipped_noise (w : World) :
  let xs := fst (draw_normals 216 (rng w)) in
  exists d w',
    timeseries_sample w = Returned d w' /\
    forall i, (i < 72)%nat ->
      let raw := (95 + nth (144 + i) xs 0 * 2)%Q in
      ((raw <= 90)%Q -> (nth i (spo2 d) 0 == 90)%Q) /\
      ((100 <= raw)%Q -> (nth i (spo2 d) 0 == 100)%Q) /\
      ((90 <= raw <= 100)%Q -> (nth i (spo2 d) 0 == raw)%Q).
Proof.
  cbv zeta.
  destruct (timeseries_sample_stream w)
    as (walk & steps & noise & ts & Exs & Hw & Hs & Hn & _ & E).
  eexists _, _. split; [exact E |]. cbn [spo2].
  intros i Hi. unfold clip.
  rewrite (map_nth_in _ _ 0%Q) by (rewrite !length_map, Hn; exact Hi).
  rewrite (map_nth_in _ _ 0%Q) by (rewrite length_map, Hn; exact Hi).
  rewrite (map_nth_in _ _ 0%Q) by (rewrite Hn; exact Hi).
  assert (Ex : nth (144 + i) (fst (draw_normals 216 (rng w))) 0%Q
               = nth i noise 0%Q).
  { rewrite Exs, app_assoc.
    rewrite app_nth2 by (rewrite length_app, Hw, Hs; lia).
    rewrite length_app, Hw, Hs. f_equal. lia. }
  rewrite Ex. unfold clip1.
  set (raw := (95 + nth i noise 0 * 2)%Q).
  split; [| split].
  - intros H. rewrite (Q.max_r raw 90) by exact H.
    apply Q.min_r. discriminate.
  - intros H. rewrite (Q.max_l raw 90) by lra.
    now apply Q.min_l.
  - intros [H1 H2]. rewrite (Q.max_l raw 90) by exact H1.
    now apply Q.min_r.
Qed.

(** X8. On a clock that never goes back, the timestamps ascend by at least
    one hour from each to the next. *)
Theorem timestamps_ascend (w : World) :
  (forall a b, (a <= b)%nat -> (clock w a <= clock w b)%Z) ->
  exists d w',
    timeseries_sample w = Returned d w' /\
    forall i, (S i < 72)%nat ->
      (nth i (timestamps d) 0 + 3600000000 <= nth (S i) (timestamps d) 0)%Z.
Proof.
  intros Hmono.
  destruct (timeseries_sample_run w) as (ts & E & _ & Hn).
  eexists _, _. split; [exact E |]. cbn [timestamps].
  intros i Hi.
  rewrite (Hn i) by (unfold hours; lia).
  rewrite (Hn (S i)) by (unfold hours; lia).
  pose proof (Hmono (ticks w + i)%nat (ticks w + S i)%nat) as M.
  unfold timedelta_hours, hours. lia.
Qed.

(** ** The counts of the table, from the stream of draws *)

Lemma draws_shift (f : RandomState -> Z) (step : RandomState -> RandomState)
    (s : RandomState) (n m : nat) :
  map (fun k => f (Nat.iter k step (Nat.iter n step s))) (seq 0 m)
  = map (fun k => f (Nat.iter k step s)) (seq n m).
Proof.
  revert n; induction m as [|m IH]; intros n; [reflexivity |].
  cbn [seq map]. f_equal.
  rewrite <- (IH (S n)), <- seq_shift, map_map.
  apply map_ext. intros k. now rewrite Nat.iter_succ_r.
Qed.

(** The inner loop with its counts named: draw [k] of the loop is draw [k]
    of the stream it starts on. *)
Lemma demographics_inner_draws (age : string) (os : list string) :
  forall (data : list Row) (w : World),
    for_in os
      (fun outc data =>
         bind (np_random_randint 10 100)
              (fun n => ret (data ++ [ {| age_group := age; outcome := outc;
                                          count := n |} ])))
      data w
    = Returned
        (data ++
         zip_with (fun o n => {| age_group := age; outcome := o;
                                 count := n |})
           os
           (map (fun k =>
                   fst (randint 10 100
                          (Nat.iter k (fun s => snd (randint 10 100 s))
                                    (rng w))))
                (seq 0 (length os))))
        (set_rng (Nat.iter (length os) (fun s => snd (randint 10 100 s))
                           (rng w)) w).
Proof.
  induction os as [|o os IH]; intros data w.
  - cbn [for_in zip_with length seq map Nat.iter nat_rect].
    now rewrite ret_run, app_nil_r, set_rng_same.
  - cbn [for_in].
    rewrite bind_run, bind_run, np_random_randint_run, ret_run.
    rewrite IH, rng_set_rng, set_rng_set_rng.
    cbn [length seq map zip_with].
    rewrite <- app_assoc. cbn [app].
    rewrite Nat.iter_succ_r.
    rewrite <- (draws_shift (fun s => fst (randint 10 100 s))
                  (fun s => snd (randint 10 100 s)) (rng w) 1 (length os)).
    reflexivity.
Qed.

Lemma zip_with_counts (age : string) (os : list string) (ns : list Z) :
  length ns = length os ->
  map count (zip_with (fun o n => {| age_group := age; outcome := o;
                                     count := n |}) os ns) = ns.
Proof.
  revert ns; induction os as [|o os IH]; intros [|n ns] H; simpl in *;
    try discriminate; auto.
  f_equal. apply IH. now injection H.
Qed.

Lemma demographics_outer_draws (ags os : list string) :
  forall (data : list Row) (w : World),
  exists rows,
    for_in ags
      (fun age data =>
         for_in os
           (fun outc data =>
              bind (np_random_randint 10 100)
                   (fun n => ret (data ++ [ {| age_group := age;
                                               outcome := outc;
                                               count := n |} ])))
           data)
      data w
    = Returned (data ++ rows)
        (set_rng (Nat.iter (length ags * length os)
                           (fun s => snd (randint 10 100 s)) (rng w)) w) /\
    map count rows
    = map (fun k =>
             fst (randint 10 100
                    (Nat.iter k (fun s => snd (randint 10 100 s)) (rng w))))
          (seq 0 (length ags * length os)).
Proof.
  induction ags as [|age ags IH]; intros data w.
  - exists []. cbn [for_in length Nat.mul seq map Nat.iter nat_rect].
    now rewrite ret_run, app_nil_r, set_rng_same.
  - cbn [for_in]. rewrite bind_run, demographics_inner_draws.
    match goal with
    | |- context [for_in ags _ ?d ?u] => destruct (IH d u) as (rows & E & Hc)
    end.
    rewrite rng_set_rng in E, Hc.
    eexists. split.
    + rewrite E, set_rng_set_rng, <- app_assoc.
      cbn [length Nat.mul]. rewrite Nat.add_comm, Nat.iter_add.
      reflexivity.
    + rewrite map_app, Hc, zip_with_counts
        by now rewrite length_map, length_seq.
      pose proof (draws_shift (fun s => fst (randint 10 100 s))
                    (fun s => snd (randint 10 100 s)) (rng w)
                    (length os) (length ags * length os)) as Hs.
      cbv beta in Hs. rewrite Hs.
      cbn [length Nat.mul]. now rewrite seq_app, map_app.
Qed.

(** X9. The data step of the demographics generator always returns; its 15
    counts are 15 successive [randint(10, 100)] draws, in the order of the
    rows, and it changes nothing of the state but the generator. *)
Theorem demographics_counts_are_successive_draws (w : World) :
  let step := fun s => snd (randint 10 100 s) in
  exists data,
    demographics_sample w
    = Returned data (set_rng (Nat.iter 15 step (rng w)) w) /\
    map count data
    = map (fun k => fst (randint 10 100 (Nat.iter k step (rng w))))
          (seq 0 15).
Proof.
  cbv zeta.
  destruct (demographics_outer_draws age_groups outcomes [] w)
    as (rows & E & Hc).
  exists rows. split; [exact E | exact Hc].
Qed.

(** ** What a generator leaves behind *)

Lemma printed_app t1 t2 : printed (t1 ++ t2) = printed t1 ++ printed t2.
Proof.
  induction t1 as [|[l | p fig] t1 IH]; simpl; auto. now rewrite IH.
Qed.

(** The write and the confirmation line that end each generator. *)
Lemma write_then_print_outcome fig p msg (u : World) :
  let o := bind (fig_write_html fig p) (fun _ => print msg) u in
  raised_by o = snd (write_html fig p (fs u)) /\
  fs (final_world o) = fst (write_html fig p (fs u)) /\
  rng (final_world o) = rng u /\
  figures (trace (final_world o)) = figures (trace u) ++ [fig] /\
  printed (trace (final_world o))
  = printed (trace u)
    ++ match raised_by o with
       | None => [msg]
       | Some _ => []
       end.
Proof.
  cbv zeta. rewrite bind_run. unfold fig_write_html.
  destruct (write_html fig p (fs u)) as [disk [e |]];
    cbn [final_world raised_by log set_fs rng fs trace print fst snd];
    rewrite ?figures_app, ?printed_app; cbn [figures printed];
    rewrite ?app_nil_r; auto.
Qed.

Lemma generate_timeseries_split (w : World) :
  exists d u,
    timeseries_sample w = Returned d u /\
    fs u = fs w /\ trace u = trace w /\
    length (timestamps d) = 72%nat /\ length (heart_rate d) = 72%nat /\
    length (blood_pressure_sys d) = 72%nat /\ length (spo2 d) = 72%nat /\
    generate_timeseries_visualization w
    = bind (fig_write_html (timeseries_figure d)
              "visualizations/timeseries.html")
           (fun _ => print "✓ Generated timeseries.html") u.
Proof.
  destruct (timeseries_sample_stream w)
    as (walk & steps & noise & ts & _ & Hw & Hs & Hn & Hl & E).
  destruct (iter_tick 72 w) as (_ & _ & _ & Hf & Ht).
  eexists _, _. split; [exact E |].
  rewrite fs_set_rng, trace_set_rng.
  split; [exact Hf |]. split; [exact Ht |].
  cbn [timestamps heart_rate blood_pressure_sys spo2].
  split; [exact Hl |].
  split; [rewrite zip_with_length, !length_map, cumsum_length, arange_length,
            Hw; reflexivity |].
  split; [now rewrite length_map, cumsum_length, length_map |].
  split; [now rewrite clip_length, !length_map |].
  unfold generate_timeseries_visualization. now rewrite bind_run, E.
Qed.

Lemma generate_demographics_split (w : World) :
  exists rows u,
    demographics_sample w = Returned rows u /\
    fs u = fs w /\ trace u = trace w /\
    length rows = 15%nat /\
    generate_demographics_visualization w
    = bind (fig_write_html (demographics_figure rows)
              "visualizations/demographics.html")
           (fun _ => print "✓ Generated demographics.html") u.
Proof.
  destruct (demographics_sample_run w) as (rows & s & Hk & _ & Hrun).
  exists rows, (set_rng s w). split; [now apply Hrun |].
  rewrite fs_set_rng, trace_set_rng.
  split; [reflexivity |]. split; [reflexivity |].
  split.
  - rewrite <- (length_map (fun r => (age_group r, outcome r))), Hk.
    reflexivity.
  - unfold generate_demographics_visualization.
    now rewrite bind_run, (Hrun w eq_refl).
Qed.

Lemma generate_correlation_split (w : World) :
  exists m u,
    correlation_sample w = Returned m u /\
    fs u = fs w /\ trace u = trace w /\
    shape m 8 8 /\
    generate_correlation_visualization w
    = bind (fig_write_html (correlation_figure m)
              "visualizations/correlation.html")
           (fun _ => print "✓ Generated correlation.html") u.
Proof.
  destruct (correlation_sample_facts w) as (m & top & E & _ & Hm & _).
  eexists _, _. split; [exact E |].
  rewrite fs_set_rng, trace_set_rng.
  split; [reflexivity |]. split; [reflexivity |]. split; [exact Hm |].
  unfold generate_correlation_visualization. now rewrite bind_run, E.
Qed.

(** X10. Each generator makes one [write_html] call, on the disk it was
    started with, and leaves the disk as that call left it.  When the call
    raises, the generator raises the same exception and prints nothing; when
    the generator returns, the call had returned and the confirmation line is
    the one line printed. *)
Theorem generators_write_before_they_confirm (w : World) :
  (exists fig,
     let o := generate_timeseries_visualization w in
     let r := write_html fig "visualizations/timeseries.html" (fs w) in
     fs (final_world o) = fst r /\
     figures (trace (final_world o)) = figures (trace w) ++ [fig] /\
     (forall e, snd r = Some e ->
        raised_by o = Some e /\
        printed (trace (final_world o)) = printed (trace w)) /\
     (raised_by o = None ->
        snd r = None /\
        printed (trace (final_world o))
        = printed (trace w) ++ ["✓ Generated timeseries.html"%string])) /\
  (exists fig,
     let o := generate_demographics_visualization w in
     let r := write_html fig "visualizations/demographics.html" (fs w) in
     fs (final_world o) = fst r /\
     figures (trace (final_world o)) = figures (trace w) ++ [fig] /\
     (forall e, snd r = Some e ->
        raised_by o = Some e /\
        printed (trace (final_world o)) = printed (trace w)) /\
     (raised_by o = None ->
        snd r = None /\
        printed (trace (final_world o))
        = printed (trace w) ++ ["✓ Generated demographics.html"%string])) /\
  (exists fig,
     let o := generate_correlation_visualization w in
     let r := write_html fig "visualizations/correlation.html" (fs w) in
     fs (final_world o) = fst r /\
     figures (trace (final_world o)) = figures (trace w) ++ [fig] /\
     (forall e, snd r = Some e ->
        raised_by o = Some e /\
        printed (trace (final_world o)) = printed (trace w)) /\
     (raised_by o = None ->
        snd r = None /\
        printed (trace (final_world o))
        = printed (trace w) ++ ["✓ Generated correlation.html"%string])).
Proof.
  split; [| split].
  - destruct (generate_timeseries_split w)
      as (d & u & _ & Hf & Ht & _ & _ & _ & _ & E).
    exists (timeseries_figure d). cbv zeta. rewrite E.
    destruct (write_then_print_outcome (timeseries_figure d)
                "visualizations/timeseries.html"
                "✓ Generated timeseries.html" u)
      as (H1 & H2 & _ & H4 & H5).
    rewrite Hf in H1, H2. rewrite Ht in H4, H5.
    split; [exact H2 |]. split; [exact H4 |]. split.
    + intros e He. rewrite He in H1. rewrite H1 in H5.
      split; [exact H1 |]. now rewrite app_nil_r in H5.
    + intros Hr. rewrite Hr in H1, H5. split; [now symmetry | exact H5].
  - destruct (generate_demographics_split w)
      as (rows & u & _ & Hf & Ht & _ & E).
    exists (demographics_figure rows). cbv zeta. rewrite E.
    destruct (write_then_print_outcome (demographics_figure rows)
                "visualizations/demographics.html"
                "✓ Generated demographics.html" u)
      as (H1 & H2 & _ & H4 & H5).
    rewrite Hf in H1, H2. rewrite Ht in H4, H5.
    split; [exact H2 |]. split; [exact H4 |]. split.
    + intros e He. rewrite He in H1. rewrite H1 in H5.
      split; [exact H1 |]. now rewrite app_nil_r in H5.
    + intros Hr. rewrite Hr in H1, H5. split; [now symmetry | exact H5].
  - destruct (generate_correlation_split w)
      as (m & u & _ & Hf & Ht & _ & E).
    exists (correlation_figure m). cbv zeta. rewrite E.
    destruct (write_then_print_outcome (correlation_figure m)
                "visualizations/correlation.html"
                "✓ Generated correlation.html" u)
      as (H1 & H2 & _ & H4 & H5).
    rewrite Hf in H1, H2. rewrite Ht in H4, H5.
    split; [exact H2 |]. split; [exact H4 |]. split.
    + intros e He. rewrite He in H1. rewrite H1 in H5.
      split; [exact H1 |]. now rewrite app_nil_r in H5.
    + intros Hr. rewrite Hr in H1, H5. split; [now symmetry | exact H5].
Qed.

(** ** What [main] leaves behind *)

Lemma generate_timeseries_summary (w : World) :
  exists ts hr bp ox,
    let o := generate_timeseries_visualization w in
    length ts = 72%nat /\ length hr = 72%nat /\
    length bp = 72%nat /\ length ox = 72%nat /\
    figures (trace (final_world o))
    = figures (trace w)
      ++ [LineChart "ICU Patient Vital Signs - Time Series Analysis"
            [ {| sc_x := ts; sc_y := hr; sc_name := "Heart Rate (bpm)" |};
              {| sc_x := ts; sc_y := bp; sc_name := "Systolic BP (mmHg)" |};
              {| sc_x := ts; sc_y := ox; sc_name := "SpO2 (%)" |} ]] /\
    printed (trace (final_world o))
    = printed (trace w)
      ++ match raised_by o with
         | None => ["✓ Generated timeseries.html"%string]
         | Some _ => []
         end.
Proof.
  destruct (generate_timeseries_split w)
    as (d & u & _ & _ & Ht & L1 & L2 & L3 & L4 & E).
  exists (timestamps d), (heart_rate d), (blood_pressure_sys d), (spo2 d).
  cbv zeta. rewrite E.
  destruct (write_then_print_outcome (timeseries_figure d)
              "visualizations/timeseries.html"
              "✓ Generated timeseries.html" u)
    as (_ & _ & _ & H4 & H5).
  rewrite Ht in H4, H5. repeat (split; [assumption |]). exact H5.
Qed.

Lemma generate_demographics_summary (w : World) :
  exists rows,
    let o := generate_demographics_visualization w in
    length rows = 15%nat /\
    figures (trace (final_world o))
    = figures (trace w)
      ++ [BarChart "Patient Demographics and Outcomes" rows] /\
    printed (trace (final_world o))
    = printed (trace w)
      ++ match raised_by o with
         | None => ["✓ Generated demographics.html"%string]
         | Some _ => []
         end.
Proof.
  destruct (generate_demographics_split w) as (rows & u & _ & _ & Ht & L & E).
  exists rows. cbv zeta. rewrite E.
  destruct (write_then_print_outcome (demographics_figure rows)
              "visualizations/demographics.html"
              "✓ Generated demographics.html" u)
    as (_ & _ & _ & H4 & H5).
  rewrite Ht in H4, H5. split; [exact L |]. split; [exact H4 | exact H5].
Qed.

Lemma generate_correlation_summary (w : World) :
  exists m,
    let o := generate_correlation_visualization w in
    shape m 8 8 /\
    figures (trace (final_world o))
    = figures (trace w)
      ++ [Heatmap "Clinical Variables Correlation Matrix"
            variables variables m] /\
    printed (trace (final_world o))
    = printed (trace w)
      ++ match raised_by o with
         | None => ["✓ Generated correlation.html"%string]
         | Some _ => []
         end.
Proof.
  destruct (generate_correlation_split w) as (m & u & _ & _ & Ht & L & E).
  exists m. cbv zeta. rewrite E.
  destruct (write_then_print_outcome (correlation_figure m)
              "visualizations/correlation.html"
              "✓ Generated correlation.html" u)
    as (_ & _ & _ & H4 & H5).
  rewrite Ht in H4, H5. split; [exact L |]. split; [exact H4 | exact H5].
Qed.

(** X11. What [main] prints: the banner and the rule, then the confirmation
    lines of the generators that returned, in order, and the five closing
    lines only when all three returned; after an exception nothing more is
    printed. *)
Theorem main_prints_success_only_after_three_writes (w : World) :
  exists k,
    (k <= 3)%nat /\
    printed (trace (final_world (main w)))
    = printed (trace w)
      ++ [ "Generating interactive Plotly visualizations...";
           str_times "-" 50 ]%string
      ++ firstn k [ "✓ Generated timeseries.html";
                    "✓ Generated demographics.html";
                    "✓ Generated correlation.html" ]%string
      ++ match raised_by (main w) with
         | None =>
             [ str_times "-" 50;
               "All visualizations generated successfully!";
               String "010" "To view the visualizations:";
               "1. Open index.html in a web browser";
               "2. Or deploy to GitHub Pages" ]%string
         | Some _ => []
         end /\
    (raised_by (main w) = None -> k = 3%nat) /\
    (raised_by (main w) <> None -> (k < 3)%nat).
Proof.
  pose proof (main_cases w) as HM. cbv zeta in HM.
  set (w0 := log (Print (str_times "-" 50))
               (log (Print "Generating interactive Plotly visualizations...")
                    w)) in HM.
  assert (P0 : printed (trace w0)
               = printed (trace w)
                 ++ [ "Generating interactive Plotly visualizations...";
                      str_times "-" 50 ]%string).
  { subst w0. cbn [log trace]. rewrite !printed_app. cbn [printed].
    now rewrite <- app_assoc. }
  destruct (generate_timeseries_summary w0)
    as (ts & hr & bp & ox & S1). cbv zeta in S1.
  destruct S1 as (_ & _ & _ & _ & _ & P1). rewrite P0 in P1.
  destruct (generate_timeseries_visualization w0) as [[] w1 | e w1].
  2:{ rewrite HM. exists 0%nat. cbn [final_world raised_by] in *.
      split; [lia |]. split; [| split; [discriminate | lia]].
      rewrite P1, ?app_nil_r, <- ?app_assoc. reflexivity. }
  cbn [final_world raised_by] in P1.
  destruct (generate_demographics_summary w1) as (rows & S2).
  cbv zeta in S2. destruct S2 as (_ & _ & P2). rewrite P1 in P2.
  destruct (generate_demographics_visualization w1) as [[] w2 | e w2].
  2:{ rewrite HM. exists 1%nat. cbn [final_world raised_by] in *.
      split; [lia |]. split; [| split; [discriminate | lia]].
      rewrite P2, ?app_nil_r, <- ?app_assoc. reflexivity. }
  cbn [final_world raised_by] in P2.
  destruct (generate_correlation_summary w2) as (m & S3).
  cbv zeta in S3. destruct S3 as (_ & _ & P3). rewrite P2 in P3.
  destruct (generate_correlation_visualization w2) as [[] w3 | e w3].
  2:{ rewrite HM. exists 2%nat. cbn [final_world raised_by] in *.
      split; [lia |]. split; [| split; [discriminate | lia]].
      rewrite P3, ?app_nil_r, <- ?app_assoc. reflexivity. }
  cbn [final_world raised_by] in P3.
  rewrite HM. exists 3%nat. cbn [final_world raised_by fold_left].
  split; [lia |]. split; [| split; [reflexivity | congruence]].
  cbn [log trace]. rewrite !printed_app, P3. cbn [printed].
  rewrite <- ?app_assoc. reflexivity.
Qed.

(** X12. When [main] returns it has handed three charts to [write_html], in
    this order and at these paths: the line chart with its three named traces
    over one list of 72 timestamps, each with 72 values; the bar chart with
    its 15 rows; and the heatmap of an 8 by 8 matrix labelled on both axes by
    the eight variables. *)
Theorem main_writes_three_charts (w u : World) :
  main w = Returned tt u ->
  exists ts hr bp ox rows m,
    figures (trace u)
    = figures (trace w)
      ++ [ LineChart "ICU Patient Vital Signs - Time Series Analysis"
             [ {| sc_x := ts; sc_y := hr; sc_name := "Heart Rate (bpm)" |};
               {| sc_x := ts; sc_y := bp;
                  sc_name := "Systolic BP (mmHg)" |};
               {| sc_x := ts; sc_y := ox; sc_name := "SpO2 (%)" |} ];
           BarChart "Patient Demographics and Outcomes" rows;
           Heatmap "Clinical Variables Correlation Matrix"
             variables variables m ] /\
    paths (trace u)
    = paths (trace w)
      ++ [ "visualizations/timeseries.html";
           "visualizations/demographics.html";
           "visualizations/correlation.html" ]%string /\
    length ts = 72%nat /\ length hr = 72%nat /\
    length bp = 72%nat /\ length ox = 72%nat /\
    length rows = 15%nat /\
    shape m 8 8 /\ length variables = 8%nat.
Proof.
  intros Hmain.
  pose proof (main_cases w) as HM. cbv zeta in HM.
  set (w0 := log (Print (str_times "-" 50))
               (log (Print "Generating interactive Plotly visualizations...")
                    w)) in HM.
  assert (F0 : figures (trace w0) = figures (trace w)).
  { subst w0. cbn [log trace]. rewrite !figures_app. cbn [figures].
    now rewrite !app_nil_r. }
  assert (P0 : paths (trace w0) = paths (trace w)).
  { subst w0. cbn [log trace]. rewrite !paths_app. cbn [paths].
    now rewrite !app_nil_r. }
  destruct (generate_timeseries_summary w0)
    as (ts & hr & bp & ox & S1). cbv zeta in S1.
  destruct S1 as (L1 & L2 & L3 & L4 & F1 & _). rewrite F0 in F1.
  destruct (generate_timeseries_effects w0) as (? & ? & ? & ? & E1).
  destruct (E1 w0 eq_refl) as (_ & _ & P1). clear E1. rewrite P0 in P1.
  destruct (generate_timeseries_visualization w0) as [[] w1 | e w1];
    [| congruence].
  cbn [final_world] in F1, P1.
  destruct (generate_demographics_summary w1) as (rows & S2).
  cbv zeta in S2. destruct S2 as (L5 & F2 & _). rewrite F1 in F2.
  destruct (generate_demographics_effects w1) as (? & ? & E2).
  destruct (E2 w1 eq_refl) as (_ & _ & P2). clear E2. rewrite P1 in P2.
  destruct (generate_demographics_visualization w1) as [[] w2 | e w2];
    [| congruence].
  cbn [final_world] in F2, P2.
  destruct (generate_correlation_summary w2) as (m & S3).
  cbv zeta in S3. destruct S3 as (L6 & F3 & _). rewrite F2 in F3.
  destruct (generate_correlation_effects w2) as (? & ? & E3).
  destruct (E3 w2 eq_refl) as (_ & _ & P3). clear E3. rewrite P2 in P3.
  destruct (generate_correlation_visualization w2) as [[] w3 | e w3];
    [| congruence].
  cbn [final_world] in F3, P3.
  rewrite HM in Hmain. injection Hmain as <-.
  exists ts, hr, bp, ox, rows, m.
  cbn [fold_left log trace]. rewrite !figures_app, !paths_app.
  cbn [figures paths]. rewrite !app_nil_r.
  rewrite F3, P3, <- !app_assoc. cbn [app].
  repeat (split; [first [reflexivity | assumption] |]). reflexivity.
Qed.

(** ** Runs that stop early *)

Lemma main_data_prefix (w0 : World) :
  exists hr bp ox ns m,
  forall w, rng w = rng w0 ->
    exists k,
      (1 <= k <= 3)%nat /\
      map synthesized (figures (trace (final_world (main w))))
      = map synthesized (figures (trace w))
        ++ firstn k [Series [hr; bp; ox]; Counts ns; Matrix m].
Proof.
  destruct (generate_timeseries_effects w0) as (hr & bp & ox & s1 & E1).
  destruct (generate_demographics_effects (set_rng s1 w0))
    as (rows & s2 & E2).
  destruct (generate_correlation_effects (set_rng s2 w0)) as (m & s3 & E3).
  exists hr, bp, ox, (map count rows), m.
  intros w Hw.
  pose proof (main_cases w) as HM. cbv zeta in HM.
  set (w1 := log (Print (str_times "-" 50))
               (log (Print "Generating interactive Plotly visualizations...")
                    w)) in HM.
  assert (F1 : figures (trace w1) = figures (trace w)).
  { subst w1. cbn [log trace]. rewrite !figures_app. cbn [figures].
    now rewrite !app_nil_r. }
  specialize (E1 w1 Hw). cbv zeta in E1. destruct E1 as (R1 & D1 & _).
  rewrite F1 in D1.
  destruct (generate_timeseries_visualization w1) as [[] w2 | e w2].
  2:{ rewrite HM. exists 1%nat. split; [lia | exact D1]. }
  cbn [final_world] in R1, D1.
  specialize (E2 w2 R1). cbv zeta in E2. destruct E2 as (R2 & D2 & _).
  rewrite D1, <- app_assoc in D2.
  destruct (generate_demographics_visualization w2) as [[] w3 | e w3].
  2:{ rewrite HM. exists 2%nat. split; [lia | exact D2]. }
  cbn [final_world] in R2, D2.
  specialize (E3 w3 R2). cbv zeta in E3. destruct E3 as (_ & D3 & _).
  rewrite D2, <- app_assoc in D3.
  destruct (generate_correlation_visualization w3) as [[] w4 | e w4].
  2:{ rewrite HM. exists 3%nat. split; [lia | exact D3]. }
  cbn [final_world] in D3.
  rewrite HM. exists 3%nat. split; [lia |].
  cbn [final_world fold_left log trace]. rewrite !figures_app.
  cbn [figures]. rewrite !app_nil_r. exact D3.
Qed.

(** X13. Two runs from one seed value agree on the arrays they hand to
    [write_html] also when one or both stop at an exception: each run hands
    over the first one, two or three of the same three arrays. *)
Theorem same_seed_same_data_up_to_the_exception
    (v : Z) (s1 s2 : RandomState) (c1 c2 : nat -> Z)
    (disk1 disk2 : FileSystem) :
  exists hr bp ox ns m k1 k2,
    (1 <= k1 <= 3)%nat /\ (1 <= k2 <= 3)%nat /\
    map synthesized
      (figures (trace (final_world (script_seeded v (boot s1 c1 disk1)))))
    = firstn k1 [Series [hr; bp; ox]; Counts ns; Matrix m] /\
    map synthesized
      (figures (trace (final_world (script_seeded v (boot s2 c2 disk2)))))
    = firstn k2 [Series [hr; bp; ox]; Counts ns; Matrix m].
Proof.
  destruct (main_data_prefix (set_rng (seeded v) (boot s1 c1 disk1)))
    as (hr & bp & ox & ns & m & Hdata).
  destruct (Hdata (set_rng (seeded v) (boot s1 c1 disk1)) eq_refl)
    as (k1 & K1 & D1).
  destruct (Hdata (set_rng (seeded v) (boot s2 c2 disk2)) eq_refl)
    as (k2 & K2 & D2).
  exists hr, bp, ox, ns, m, k1, k2.
  split; [exact K1 |]. split; [exact K2 |].
  unfold script_seeded. rewrite !bind_run. unfold np_random_seed.
  split; [exact D1 | exact D2].
Qed.

(** ** The stream and the clock over a whole run *)

Lemma write_then_print_clock fig p msg (u : World) :
  let o := bind (fig_write_html fig p) (fun _ => print msg) u in
  ticks (final_world o) = ticks u /\ clock (final_world o) = clock u.
Proof.
  cbv zeta. rewrite bind_run. unfold fig_write_html.
  destruct (write_html fig p (fs u)) as [disk [e |]];
    cbn [final_world log set_fs ticks clock print]; auto.
Qed.

(** X14. A run of [main] that returns has taken, in this order, 216 normal
    draws, 15 [randint(10, 100)] draws and 64 normal draws from the
    generator, and has read the clock 72 times. *)
Theorem main_takes_the_stream_in_order (w u : World) :
  main w = Returned tt u ->
  rng u
  = snd (draw_normals 64
           (Nat.iter 15 (fun s => snd (randint 10 100 s))
                     (snd (draw_normals 216 (rng w))))) /\
  ticks u = (ticks w + 72)%nat /\
  clock u = clock w.
Proof.
  intros Hmain.
  pose proof (main_cases w) as HM. cbv zeta in HM.
  set (w0 := log (Print (str_times "-" 50))
               (log (Print "Generating interactive Plotly visualizations...")
                    w)) in HM.
  (* the time series *)
  destruct (timeseries_sample_stream w0)
    as (walk & steps & noise & ts & _ & _ & _ & _ & _ & E1).
  destruct (iter_tick 72 w0) as (_ & C1 & T1 & _).
  unfold generate_timeseries_visualization in HM.
  rewrite bind_run, E1 in HM.
  match type of HM with
  | context [bind (fig_write_html ?fig ?p) (fun _ => print ?msg) ?v] =>
      destruct (write_then_print_outcome fig p msg v) as (_ & _ & R1 & _);
      destruct (write_then_print_clock fig p msg v) as (K1 & L1);
      destruct (bind (fig_write_html fig p) (fun _ => print msg) v)
        as [[] w1 | e w1]
  end; [| congruence].
  cbn [final_world] in R1, K1, L1.
  rewrite rng_set_rng in R1. rewrite ticks_set_rng, T1 in K1.
  rewrite clock_set_rng, C1 in L1.
  (* the table *)
  destruct (demographics_outer_draws age_groups outcomes [] w1)
    as (rows & E2 & _).
  change (length age_groups * length outcomes)%nat with 15%nat in E2.
  unfold generate_demographics_visualization, demographics_sample in HM.
  rewrite bind_run, E2 in HM.
  match type of HM with
  | context [bind (fig_write_html ?fig ?p) (fun _ => print ?msg) ?v] =>
      destruct (write_then_print_outcome fig p msg v) as (_ & _ & R2 & _);
      destruct (write_then_print_clock fig p msg v) as (K2 & L2);
      destruct (bind (fig_write_html fig p) (fun _ => print msg) v)
        as [[] w2 | e w2]
  end; [| congruence].
  cbn [final_world] in R2, K2, L2.
  rewrite rng_set_rng in R2. rewrite ticks_set_rng in K2.
  rewrite clock_set_rng in L2.
  (* the matrix *)
  destruct (correlation_sample_facts w2) as (m & top & E3 & _).
  destruct (draw_normal_rows_flat 8 8 (rng w2)) as [_ F3].
  change (8 * 8)%nat with 64%nat in F3. rewrite F3 in E3.
  unfold generate_correlation_visualization in HM.
  rewrite bind_run, E3 in HM.
  match type of HM with
  | context [bind (fig_write_html ?fig ?p) (fun _ => print ?msg) ?v] =>
      destruct (write_then_print_outcome fig p msg v) as (_ & _ & R3 & _);
      destruct (write_then_print_clock fig p msg v) as (K3 & L3);
      destruct (bind (fig_write_html fig p) (fun _ => print msg) v)
        as [[] w3 | e w3]
  end; [| congruence].
  cbn [final_world] in R3, K3, L3.
  rewrite rng_set_rng in R3. rewrite ticks_set_rng in K3.
  rewrite clock_set_rng in L3.
  rewrite HM in Hmain. injection Hmain as <-.
  cbn [fold_left log rng ticks clock].
  split; [| split].
  - rewrite R3, R2, R1. reflexivity.
  - rewrite K3, K2, K1. reflexivity.
  - rewrite L3, L2, L1. reflexivity.
Qed.

End ScriptMore.

(** X8, on the clock of the small runtime. *)
Lemma timestamps_ascend_witness :
  exists d w',
    @timeseries_sample demo (demo_world 0 3) = Returned d w' /\
    forall i, (S i < 72)%nat ->
      (nth i (timestamps d) 0 + 3600000000 <= nth (S i) (timestamps d) 0)%Z.
Proof.
  apply (@timestamps_ascend demo (demo_world 0 3)).
  intros a b H. cbn [demo_world boot clock]. unfold demo_clock. lia.
Defined.

(** X12, on a completed run of the small runtime. *)
Lemma main_writes_three_charts_witness :
  let w := demo_world 0 3 in
  let u := final_world (@main demo w) in
  exists ts hr bp ox rows m,
    figures (trace u)
    = figures (trace w)
      ++ [ LineChart "ICU Patient Vital Signs - Time Series Analysis"
             [ {| sc_x := ts; sc_y := hr; sc_name := "Heart Rate (bpm)" |};
               {| sc_x := ts; sc_y := bp;
                  sc_name := "Systolic BP (mmHg)" |};
               {| sc_x := ts; sc_y := ox; sc_name := "SpO2 (%)" |} ];
           BarChart "Patient Demographics and Outcomes" rows;
           Heatmap "Clinical Variables Correlation Matrix"
             variables variables m ] /\
    paths (trace u)
    = paths (trace w)
      ++ [ "visualizations/timeseries.html";
           "visualizations/demographics.html";
           "visualizations/correlation.html" ]%string /\
    length ts = 72%nat /\ length hr = 72%nat /\
    length bp = 72%nat /\ length ox = 72%nat /\
    length rows = 15%nat /\
    Np.shape m 8 8 /\ length variables = 8%nat.
Proof.
  cbv zeta.
  apply (@main_writes_three_charts demo (demo_world 0 3)).
  vm_compute. reflexivity.
Defined.

(** X14, on a completed run of the small runtime. *)
Lemma main_takes_the_stream_in_order_witness :
  let w := demo_world 0 3 in
  let u := final_world (@main demo w) in
  rng u
  = snd (@draw_normals demo 64
           (Nat.iter 15 (fun s => snd (@randint demo 10 100 s))
                     (snd (@draw_normals demo 216 (rng w))))) /\
  ticks u = (ticks w + 72)%nat /\
  clock u = clock w.
Proof.
  cbv zeta.
  apply (@main_takes_the_stream_in_order demo (demo_world 0 3)).
  vm_compute. reflexivity.
Defined.
